(** * Emotion blending and modulation: a shallow embedding

    Embeds [packages/emotion-engine/app/emotion_blend.py] and the label
    detector [_detect_emotion_blend] of
    [packages/emotion-engine/app/inference.py].

    Numbers.  The Python code computes on IEEE doubles.  Here a double is
    idealised as a real number ([R]): sums, products and quotients are
    exact, and [round(x, n)] rounds the exact value half-to-even at [n]
    decimals.  [np.exp] is the real exponential with the underflow of
    doubles: a value below 2^-1075 comes out as 0.0.  Overflow and NaN have
    no counterpart in this model, so the properties of the arithmetic are
    stated for inputs in the range of doubles ([scaled_in_range],
    [safe_entry], [moderate]), and the values that depend on the last bit
    of a double are stated up to the unit rounded at, not as equations.

    Dictionaries are [gmap string R]; the exceptions the code can raise are
    the constructors of [exn], and a call that may raise returns a
    [result]. *)

From Stdlib Require Import Reals Lra ZArith HexString.
From stdpp Require Import gmap strings list.

Local Open Scope R_scope.

(** ** Exceptions and results *)

Inductive exn : Type :=
  | KeyError (key : string)
  | ValueError
  | TypeError.

Inductive result (A : Type) : Type :=
  | Ok (a : A)
  | Raise (e : exn).
Arguments Ok {A} a.
Arguments Raise {A} e.

(** Sequencing: the first exception raised ends the computation. *)
#[global] Instance result_bind : MBind result := fun A B k r =>
  match r with
  | Ok a => k a
  | Raise e => Raise e
  end.

(** [d[key]] on a Python dict. *)
Definition getitem (d : gmap string R) (key : string) : result R :=
  match d !! key with
  | Some v => Ok v
  | None => Raise (KeyError key)
  end.

(** ** Numeric helpers *)

(** Nearest integer, ties to the even one (C [rint], Python [round]). *)
Definition rint (x : R) : Z :=
  let f := Int_part x in
  let d := x - IZR f in
  if Rlt_dec d (1 / 2) then f
  else if Rlt_dec (1 / 2) d then (f + 1)%Z
  else if Z.even f then f else (f + 1)%Z.

(** Python's [round(x, ndigits)]. *)
Definition py_round (x : R) (ndigits : nat) : R :=
  IZR (rint (x * 10 ^ ndigits)) / 10 ^ ndigits.

(** [np.exp] on doubles.  The least positive double is 2^-1074; an
    exponential below half of it underflows to 0.0. *)
Definition np_exp (x : R) : R :=
  if Rlt_dec (exp x) (/ 2 ^ 1075) then 0 else exp x.

(** The comparison [x > y] as the boolean Python computes. *)
Definition gtb (x y : R) : bool := if Rlt_dec y x then true else false.

(** [np.clip(x, lo, hi)] on one component. *)
Definition clip (lo hi x : R) : R := Rmin (Rmax x lo) hi.

Definition Rsum (l : list R) : R := foldr Rplus 0 l.

(** ** emotion_blend.py *)

Definition EMOTION_LABELS : list string := ["calm"; "guarded"; "lit"]%string.

(** [np.max] of a one-dimensional array; on an empty one it raises
    [ValueError]. *)
Definition np_max (x : list R) : result R :=
  match x with
  | [] => Raise ValueError
  | x0 :: xs => Ok (foldl Rmax x0 xs)
  end.

Definition softmax (x : list R) : result (list R) :=
  m ← np_max x;
  let e_x := map (fun v => np_exp (v - m)) x in
  Ok (map (fun e => e / Rsum e_x) e_x).

Definition blend_emotions (logits : list R) (alpha : R) : result (gmap string R) :=
  probs ← softmax (map (fun l => l / alpha) logits);
  let probs := map (clip 0 1) probs in
  Ok (list_to_map (zip EMOTION_LABELS probs)).

(** The default of the keyword argument [alpha]. *)
Definition alpha_default : R := 7 / 10.

Record modulation : Type := Modulation {
  tts_pitch_shift : R;
  tts_speed_scale : R;
  glow_intensity : R;
  glow_hue : R;
  glow_easing_curve : string
}.

Definition compute_modulation (blend : gmap string R) : result modulation :=
  calm ← getitem blend "calm";
  guarded ← getitem blend "guarded";
  lit ← getitem blend "lit";
  let tts_pitch_shift := py_round ((lit - calm) * (8 / 100)) 3 in
  let tts_speed_scale := py_round (9 / 10 + lit * (2 / 10) - guarded * (5 / 100)) 3 in
  let glow_intensity :=
    py_round (4 / 10 * calm + 25 / 100 * guarded + 9 / 10 * lit) 2 in
  let hue_shift := py_round (120 * lit + 240 * guarded) 1 in
  let easing_curve :=
    if gtb calm (6 / 10) then "sine"%string
    else if gtb guarded (5 / 10) then "ease-in"%string
    else "cubic"%string in
  Ok (Modulation tts_pitch_shift tts_speed_scale glow_intensity hue_shift
        easing_curve).

(** One turn of the [for key in EMOTION_LABELS] loop of [smooth_blend]. *)
Definition smooth_step (prev_blend new_blend : gmap string R) (smoothing : R)
    (acc : result (gmap string R)) (key : string) : result (gmap string R) :=
  smoothed ← acc;
  n ← getitem new_blend key;
  p ← getitem prev_blend key;
  Ok (<[key := py_round ((1 - smoothing) * n + smoothing * p) 3]> smoothed).

Definition smooth_blend (prev_blend new_blend : gmap string R) (smoothing : R)
    : result (gmap string R) :=
  foldl (smooth_step prev_blend new_blend smoothing) (Ok ∅) EMOTION_LABELS.

(** The default of the keyword argument [smoothing]. *)
Definition smoothing_default : R := 3 / 10.

(** The values [prev_blend] takes: [None] (the default) or a dict. *)
Inductive pyarg : Type :=
  | PyNone
  | PyDict (d : gmap string R).

(** Python truthiness: [None] and the empty dict are falsy. *)
Definition truthy (v : pyarg) : bool :=
  match v with
  | PyNone => false
  | PyDict d => bool_decide (d ≠ ∅)
  end.

(** [prev_blend] as the dict [smooth_blend] subscripts; [None] is not
    subscriptable. *)
Definition as_dict (v : pyarg) : result (gmap string R) :=
  match v with
  | PyNone => Raise TypeError
  | PyDict d => Ok d
  end.

Record pipeline_output : Type := PipelineOutput {
  blend_vector : gmap string R;
  out_modulation : modulation
}.

Definition process_emotion_logits (logits : list R) (prev_blend : pyarg)
    : result pipeline_output :=
  new_blend ← blend_emotions logits alpha_default;
  final_blend ←
    (if truthy prev_blend
     then prev ← as_dict prev_blend;
          smooth_blend prev new_blend smoothing_default
     else Ok new_blend);
  modulation ← compute_modulation final_blend;
  Ok (PipelineOutput final_blend modulation).

(** ** inference.py: the blend label *)

(** The unpacking [calm, guarded, lit = emotion_vector] raises
    [ValueError] unless the vector has three entries. *)

Definition _detect_emotion_blend (emotion_vector : list R) : result string :=
  match emotion_vector with
  | [calm; guarded; lit] =>
      let threshold := 3 / 10 in
      if gtb calm threshold && gtb lit threshold
      then Ok "hopeful calm"%string
      else if gtb guarded threshold && gtb lit threshold
      then Ok "guarded optimism"%string
      else if gtb calm threshold && gtb guarded threshold
      then Ok "resolute peace"%string
      else if gtb calm (6 / 10) then Ok "pure calm"%string
      else if gtb guarded (6 / 10) then Ok "pure guarded"%string
      else if gtb lit (6 / 10) then Ok "pure lit"%string
      else Ok "neutral blend"%string
  | _ => Raise ValueError
  end.

(** ** inference.py: the modulation tables and the glow colour *)

(** [x.astype(int)]: the fractional part is dropped, toward zero. *)
Definition trunc (x : R) : Z :=
  if Rlt_dec x 0 then (- Int_part (- x))%Z else Int_part x.

(** The lowercase hexadecimal digits of [|n|]. *)
Definition hex_digits (n : Z) : string :=
  match n with
  | Z0 => "0"
  | Zpos p => HexString.Raw.of_pos p ""
  | Zneg p => HexString.Raw.of_pos p ""
  end.

Fixpoint zeros (k : nat) : string :=
  match k with
  | O => ""
  | S k' => ("0" +:+ zeros k')%string
  end.

(** The format spec [02x]: sign, then the digits padded with zeros up to a
    total width of two. *)
Definition format_02x (n : Z) : string :=
  let sign := if (n <? 0)%Z then "-"%string else ""%string in
  let digits := hex_digits n in
  (sign +:+ zeros (2 - String.length sign - String.length digits)
   +:+ digits)%string.

Definition amber : list Z := [245; 158; 66]%Z.
Definition blue : list Z := [74; 144; 226]%Z.
Definition green : list Z := [126; 211; 33]%Z.

(** The channels [np.clip(calm * amber + guarded * blue + lit * green, 0,
    255).astype(int)]. *)
Definition blended_rgb (calm guarded lit : R) : list Z :=
  let weighted :=
    zip_with Rplus
      (zip_with Rplus (map (fun a => calm * IZR a) amber)
         (map (fun b => guarded * IZR b) blue))
      (map (fun g => lit * IZR g) green) in
  map (fun v => trunc (clip 0 255 v)) weighted.

Definition _interpolate_color (emotion_vector : list R) : result string :=
  match emotion_vector with
  | [calm; guarded; lit] =>
      let rgb := blended_rgb calm guarded lit in
      Ok ("#" +:+ format_02x (nth 0 rgb 0%Z) +:+ format_02x (nth 1 rgb 0%Z)
          +:+ format_02x (nth 2 rgb 0%Z))%string
  | _ => Raise ValueError
  end.

Module Blended.

(** The dict [_generate_blended_modulation] returns. *)
Record modulation : Type := Modulation {
  tts_pitch_shift : R;
  tts_speed_scale : R;
  glow_intensity : R;
  glow_easing_curve : string;
  glow_color : string
}.

End Blended.

Definition _generate_blended_modulation (emotion_vector : list R)
    : result Blended.modulation :=
  match emotion_vector with
  | [calm; guarded; lit] =>
      let tts_pitch_shift :=
        py_round (lit * (8 / 100) - calm * (2 / 100) + guarded * (3 / 100)) 3 in
      let tts_speed_scale :=
        py_round (9 / 10 + lit * (25 / 100) - guarded * (5 / 100)) 3 in
      let glow_intensity :=
        py_round (4 / 10 * calm + 25 / 100 * guarded + 9 / 10 * lit) 2 in
      let glow_easing_curve :=
        if gtb calm (5 / 10) then "sine"%string
        else if gtb guarded (5 / 10) then "ease-in"%string
        else "cubic"%string in
      glow_color ← _interpolate_color emotion_vector;
      Ok (Blended.Modulation tts_pitch_shift tts_speed_scale glow_intensity
            glow_easing_curve glow_color)
  | _ => Raise ValueError
  end.

Module Discrete.

(** The dict [_generate_modulation] returns. *)
Record modulation : Type := Modulation {
  tts_pitch_shift : R;
  tts_speed_scale : R;
  glow_intensity : R;
  glow_easing_curve : string
}.

End Discrete.

(** [probs[2]] and [probs[0]] need three entries; [None] stands for the
    [IndexError] raised otherwise, the only exception of this function. *)
Definition _generate_modulation (probs : list R) (emotion : string)
    : option Discrete.modulation :=
  p2 ← probs !! 2%nat;
  p0 ← probs !! 0%nat;
  Some (Discrete.Modulation
          (py_round ((p2 - p0) * (8 / 100)) 3)
          (py_round (9 / 10 + p2 * (2 / 10)) 3)
          (py_round (foldl Rmax p0 (tail probs)) 2)
          (if decide (emotion = "calm"%string) then "sine"%string
           else if decide (emotion = "guarded"%string) then "ease-in"%string
           else "cubic"%string)).

(** ** inference.py: the rule-based scores *)

(** [word in text] on strings. *)
Fixpoint str_contains (text word : string) : bool :=
  String.prefix word text
  || match text with
     | EmptyString => false
     | String _ text' => str_contains text' word
     end.

Definition calm_indicators : list string :=
  ["yeah"; "actually"; "clear"; "peaceful"; "fine"; "okay"; "calm";
   "steady"]%string.
Definition guarded_indicators : list string :=
  ["i mean"; "i guess"; "maybe"; "kind of"; "tired"; "worried";
   "uncertain"]%string.
Definition lit_indicators : list string :=
  ["let's do it"; "amazing"; "excited"; "can't wait"; "love"; "yes";
   "ready"]%string.

(** The loop [for word in indicators: if word in text: score += step]. *)
Definition add_indicators (text : string) (indicators : list string)
    (step score : R) : R :=
  foldl (fun s word => if str_contains text word then s + step else s)
    score indicators.

(** [torch.sqrt(torch.mean(waveform ** 2)).item()] on the elements of the
    tensor; the mean of no element is NaN, which [None] stands for. *)
Definition rms (waveform : list R) : option R :=
  match waveform with
  | [] => None
  | _ => Some (sqrt (Rsum (map (fun v => v ^ 2) waveform)
                     / INR (length waveform)))
  end.

(** A comparison with NaN is false. *)
Definition nan_gtb (x : option R) (y : R) : bool :=
  match x with Some v => gtb v y | None => false end.
Definition nan_ltb (x : option R) (y : R) : bool :=
  match x with Some v => gtb y v | None => false end.

Section RuleBased.

(** [str.lower], Python's; the scores are defined for whatever it
    returns. *)
Variable str_lower : string -> string.

Definition _rule_based_classification (transcript : string)
    (waveform : list R) (sr : Z) : list R :=
  let transcript_lower := str_lower transcript in
  let calm_score :=
    add_indicators transcript_lower calm_indicators (1 / 10) (33 / 100) in
  let guarded_score :=
    add_indicators transcript_lower guarded_indicators (1 / 10) (33 / 100) in
  let lit_score :=
    add_indicators transcript_lower lit_indicators (15 / 100) (33 / 100) in
  let energy := rms waveform in
  let '(calm_score, guarded_score, lit_score) :=
    if nan_gtb energy (5 / 10)
    then (calm_score, guarded_score, lit_score + 2 / 10)
    else if nan_ltb energy (2 / 10)
    then (calm_score, guarded_score + 15 / 100, lit_score)
    else (calm_score + 1 / 10, guarded_score, lit_score) in
  let total := calm_score + guarded_score + lit_score in
  map (fun s => s / total) [calm_score; guarded_score; lit_score].

End RuleBased.

(** ** utils/normalization.py *)

(** numpy's [a + b] on one-dimensional arrays: equal lengths add
    entrywise, a length of one is broadcast, other shapes raise
    [ValueError]. *)
Definition np_add (a b : list R) : result (list R) :=
  if decide (length a = length b) then Ok (zip_with Rplus a b)
  else match a, b with
       | [x], _ => Ok (map (Rplus x) b)
       | _, [y] => Ok (map (fun x => x + y) a)
       | _, _ => Raise ValueError
       end.

Definition smooth_temporal (current : list R) (previous : option (list R))
    (alpha : R) : result (list R) :=
  match previous with
  | None => Ok current
  | Some previous =>
      np_add (map (Rmult alpha) current) (map (Rmult (1 - alpha)) previous)
  end.

Definition interpolate_emotion_vector (start end_ : list R) (t : R)
    : result (list R) :=
  interpolated ← np_add (map (Rmult (1 - t)) start) (map (Rmult t) end_);
  Ok (map (fun v => v / Rsum interpolated) interpolated).

(** ** utils/audio_processing.py *)

(** The waveform is the list of the tensor's elements.  [max] of an empty
    tensor raises [RuntimeError], the only exception here, which [None]
    stands for. *)
Definition normalize_audio (waveform : list R) : option (list R) :=
  match waveform with
  | [] => None
  | x :: xs =>
      let max_val := foldl Rmax (Rabs x) (map Rabs xs) in
      if gtb max_val 0 then Some (map (fun v => v / max_val) waveform)
      else Some waveform
  end.


(** * Vocabulary of the properties *)

(** The outcome of a call: it raised, or it returned. *)
Definition raises {A} (r : result A) : Prop := exists e, r = Raise e.
Definition returns {A} (r : result A) : Prop := exists a, r = Ok a.

(** The dict [{"calm": c, "guarded": g, "lit": l}]. *)
Definition blend_dict (c g l : R) : gmap string R :=
  list_to_map (zip EMOTION_LABELS [c; g; l]).

(** [d] holds the three labels, with these values. *)
Definition has_blend (d : gmap string R) (c g l : R) : Prop :=
  d !! "calm"%string = Some c /\
  d !! "guarded"%string = Some g /\
  d !! "lit"%string = Some l.

(** The greatest finite double, (2^53 - 1) * 2^971. *)
Definition DBL_MAX : R := IZR (2 ^ 1024 - 2 ^ 971).

(** The quotients [logits / alpha] are finite doubles: none overflows. *)
Definition scaled_in_range (logits : list R) (alpha : R) : Prop :=
  Forall (fun l => Rabs (l / alpha) <= DBL_MAX) logits.

(** An entry whose products with the colour anchors stay far from the
    overflow of doubles. *)
Definition safe_entry (v : R) : Prop := Rabs v <= IZR (10 ^ 300).

(** A value with three decimals: a multiple of 0.001. *)
Definition three_decimals (v : R) : Prop := exists k : Z, v = IZR k / 1000.

(** The tolerance of the sum-to-one invariant. *)
Definition tolerance : R := 1 / 1000000.

Definition sums_to_one (tol : R) (d : gmap string R) : Prop :=
  exists c g l, has_blend d c g l /\ Rabs (c + g + l - 1) <= tol.

(** A dict is a distribution up to [tol]: three probabilities in [0,1]
    whose sum is within [tol] of one. *)
Definition is_distribution (tol : R) (d : gmap string R) : Prop :=
  exists c g l, has_blend d c g l /\
    0 <= c <= 1 /\ 0 <= g <= 1 /\ 0 <= l <= 1 /\
    Rabs (c + g + l - 1) <= tol.


(** Both components exceed the pair threshold 0.3. *)
Definition pair_above (x y : R) : Prop := x > 3 / 10 /\ y > 3 / 10.

(** A probability. *)
Definition unit_interval (v : R) : Prop := 0 <= v <= 1.


(** The uniform distribution, and its rounding at three decimals. *)
Definition uniform_blend : gmap string R := blend_dict (1 / 3) (1 / 3) (1 / 3).
Definition uniform_rounded : gmap string R :=
  blend_dict (333 / 1000) (333 / 1000) (333 / 1000).

(** The pure corners of the simplex. *)
Definition calm_corner : gmap string R := blend_dict 1 0 0.
Definition guarded_corner : gmap string R := blend_dict 0 1 0.
Definition lit_corner : gmap string R := blend_dict 0 0 1.

(** The pipeline without the smoothing step. *)
Definition unsmoothed (logits : list R) : result pipeline_output :=
  new_blend ← blend_emotions logits alpha_default;
  modulation ← compute_modulation new_blend;
  Ok (PipelineOutput new_blend modulation).

(** The pipeline with the smoothing step against [prev]. *)
Definition smoothed (logits : list R) (prev : gmap string R)
    : result pipeline_output :=
  new_blend ← blend_emotions logits alpha_default;
  final_blend ← smooth_blend prev new_blend (3 / 10);
  modulation ← compute_modulation final_blend;
  Ok (PipelineOutput final_blend modulation).

(** A channel is written on two hexadecimal digits, which read back as
    the channel. *)
Definition two_digits (n : Z) : bool :=
  (String.length (format_02x n) =? 2)%nat
  && (HexString.Raw.to_N (format_02x n) 0 =? Z.to_N n)%N.

(** * Properties *)

(** ** Rounding *)

Section Rounding.

Lemma Int_part_bounds (x : R) : IZR (Int_part x) <= x < IZR (Int_part x) + 1.
Proof. destruct (base_Int_part x); lra. Qed.

(** The rounded value is within one half of the argument. *)
Lemma rint_near (x : R) : IZR (rint x) - 1 / 2 <= x <= IZR (rint x) + 1 / 2.
Proof.
  pose proof (Int_part_bounds x) as Hb.
  unfold rint.
  destruct (Rlt_dec _ _) as [Hlo | Hlo].
  - lra.
  - destruct (Rlt_dec _ _) as [Hhi | Hhi];
      [| destruct (Z.even _)]; rewrite ?plus_IZR; lra.
Qed.

Lemma IZR_gap (n m : Z) : IZR n < IZR m + 1 -> (n <= m)%Z.
Proof.
  intros H. apply Z.lt_succ_r, lt_IZR. rewrite succ_IZR. exact H.
Qed.

(** An argument strictly closer to [n] than one half rounds to [n]. *)
Lemma rint_eq (x : R) (n : Z) :
  IZR n - 1 / 2 < x < IZR n + 1 / 2 -> rint x = n.
Proof.
  intros Hx. pose proof (rint_near x) as Hr.
  apply Z.le_antisymm; apply IZR_gap; lra.
Qed.

End Rounding.

Section PyRound.

Lemma pow10_pos (k : nat) : 0 < 10 ^ k.
Proof. apply pow_lt; lra. Qed.

(** [round(x, k)] moves [x] by at most half a unit of the last digit. *)
Lemma py_round_near (x : R) (k : nat) :
  Rabs (py_round x k - x) <= / 2 / 10 ^ k.
Proof.
  unfold py_round. pose proof (pow10_pos k) as Hp.
  pose proof (rint_near (x * 10 ^ k)) as Hr.
  replace (IZR (rint (x * 10 ^ k)) / 10 ^ k - x)
    with ((IZR (rint (x * 10 ^ k)) - x * 10 ^ k) / 10 ^ k) by (field; lra).
  unfold Rdiv at 1. rewrite Rabs_mult, (Rabs_pos_eq (/ 10 ^ k)).
  - apply Rmult_le_compat_r.
    + left. now apply Rinv_0_lt_compat.
    + apply Rabs_le. lra.
  - left. now apply Rinv_0_lt_compat.
Qed.

(** A value whose scaled form is nearest to [n] rounds to [n / 10^k]. *)
Lemma py_round_eq (x : R) (k : nat) (n : Z) :
  IZR n - 1 / 2 < x * 10 ^ k < IZR n + 1 / 2 ->
  py_round x k = IZR n / 10 ^ k.
Proof. intros H. unfold py_round. now rewrite (rint_eq _ n). Qed.

Lemma py_round_ge (x : R) (k : nat) (n : Z) :
  IZR n - 1 / 2 < x * 10 ^ k -> IZR n / 10 ^ k <= py_round x k.
Proof.
  intros H. unfold py_round. pose proof (pow10_pos k).
  apply Rmult_le_compat_r; [left; now apply Rinv_0_lt_compat|].
  apply IZR_le, IZR_gap. pose proof (rint_near (x * 10 ^ k)). lra.
Qed.

Lemma py_round_le (x : R) (k : nat) (n : Z) :
  x * 10 ^ k < IZR n + 1 / 2 -> py_round x k <= IZR n / 10 ^ k.
Proof.
  intros H. unfold py_round. pose proof (pow10_pos k).
  apply Rmult_le_compat_r; [left; now apply Rinv_0_lt_compat|].
  apply IZR_le, IZR_gap. pose proof (rint_near (x * 10 ^ k)). lra.
Qed.

End PyRound.

Example round_third : py_round (1 / 3) 3 = 333 / 1000.
Proof. rewrite (py_round_eq _ _ 333); simpl; lra. Qed.

(** Ties go to the even neighbour, as [round(0.5) = 0],
    [round(1.5) = 2], [round(-0.5) = 0] and [round(0.0625, 3) = 0.062]
    do in Python. *)
Lemma rint_tie (n : Z) :
  rint (IZR n + 1 / 2) = if Z.even n then n else (n + 1)%Z.
Proof.
  assert (Hf : Int_part (IZR n + 1 / 2) = n)
    by (symmetry; apply Int_part_spec; lra).
  unfold rint. rewrite Hf.
  destruct (Rlt_dec _ _); [lra|]. destruct (Rlt_dec _ _); [lra|].
  reflexivity.
Qed.

Example round_ties :
  rint (1 / 2) = 0%Z /\ rint (3 / 2) = 2%Z /\ rint (- 1 / 2) = 0%Z /\
  py_round (625 / 10000) 3 = 62 / 1000.
Proof.
  replace (1 / 2) with (IZR 0 + 1 / 2) at 1 by lra.
  replace (3 / 2) with (IZR 1 + 1 / 2) by lra.
  replace (- 1 / 2) with (IZR (-1) + 1 / 2) by lra.
  rewrite !rint_tie. repeat split.
  unfold py_round.
  replace (625 / 10000 * 10 ^ 3) with (IZR 62 + 1 / 2) by (cbn [pow]; lra).
  rewrite rint_tie. cbn [pow Z.even]. lra.
Qed.

Lemma Ok_inj {A} (a b : A) : Ok a = Ok b -> a = b.
Proof. now intros [= ->]. Qed.

(** ** Comparisons *)

Lemma gtb_spec (x y : R) : gtb x y = true <-> x > y.
Proof. unfold gtb. destruct (Rlt_dec y x); split; intros; (lra || easy). Qed.

Lemma gtb_true (x y : R) : x > y -> gtb x y = true.
Proof. apply gtb_spec. Qed.

Lemma gtb_false (x y : R) : x <= y -> gtb x y = false.
Proof. unfold gtb. destruct (Rlt_dec y x); intros; (lra || easy). Qed.

(** Settles every comparison of the goal that linear arithmetic decides. *)
Ltac settle_gtb :=
  repeat match goal with
    | |- context [gtb ?x ?y] =>
        first [ rewrite (gtb_true x y) by lra
              | rewrite (gtb_false x y) by lra ]
    end.

(** ** The blend label (Classify) *)

Section Classify.

Variables calm guarded lit : R.

(** C2: the label is the first match in the order calm-and-lit,
    guarded-and-lit, calm-and-guarded (each pair above 0.3), then calm,
    guarded, lit alone above 0.6, and "neutral blend" when nothing
    matches; the vector (0.35, 0.1, 0.4) is labelled "hopeful calm". *)
Theorem detect_emotion_blend_first_match :
  (pair_above calm lit ->
     _detect_emotion_blend [calm; guarded; lit] = Ok "hopeful calm"%string) /\
  (~ pair_above calm lit -> pair_above guarded lit ->
     _detect_emotion_blend [calm; guarded; lit]
     = Ok "guarded optimism"%string) /\
  (~ pair_above calm lit -> ~ pair_above guarded lit -> pair_above calm guarded ->
     _detect_emotion_blend [calm; guarded; lit]
     = Ok "resolute peace"%string) /\
  (~ pair_above calm lit -> ~ pair_above guarded lit -> ~ pair_above calm guarded ->
     calm > 6 / 10 ->
     _detect_emotion_blend [calm; guarded; lit] = Ok "pure calm"%string) /\
  (~ pair_above calm lit -> ~ pair_above guarded lit -> ~ pair_above calm guarded ->
     ~ calm > 6 / 10 -> guarded > 6 / 10 ->
     _detect_emotion_blend [calm; guarded; lit] = Ok "pure guarded"%string) /\
  (~ pair_above calm lit -> ~ pair_above guarded lit -> ~ pair_above calm guarded ->
     ~ calm > 6 / 10 -> ~ guarded > 6 / 10 -> lit > 6 / 10 ->
     _detect_emotion_blend [calm; guarded; lit] = Ok "pure lit"%string) /\
  (~ pair_above calm lit -> ~ pair_above guarded lit -> ~ pair_above calm guarded ->
     ~ calm > 6 / 10 -> ~ guarded > 6 / 10 -> ~ lit > 6 / 10 ->
     _detect_emotion_blend [calm; guarded; lit]
     = Ok "neutral blend"%string) /\
  _detect_emotion_blend [35 / 100; 1 / 10; 4 / 10] = Ok "hopeful calm"%string.
Proof.
  unfold pair_above, _detect_emotion_blend.
  repeat split; intros;
    repeat match goal with
      | |- context [gtb ?x ?y] =>
          let E := fresh "E" in
          destruct (gtb x y) eqn:E;
          [apply gtb_spec in E | apply not_true_iff_false in E;
                                 rewrite gtb_spec in E]
      end; simpl; first [reflexivity | exfalso; lra | tauto].
Qed.

End Classify.

(** The second branch is reached on (0.2, 0.5, 0.4): the first pair fails
    on calm, the second holds. *)
Lemma detect_emotion_blend_first_match_witness :
  _detect_emotion_blend [2 / 10; 5 / 10; 4 / 10]
  = Ok "guarded optimism"%string.
Proof.
  destruct (detect_emotion_blend_first_match (2 / 10) (5 / 10) (4 / 10))
    as (_ & H & _).
  apply H; unfold pair_above; lra.
Defined.

(** ** Blend dictionaries *)

Lemma has_blend_dict (c g l : R) : has_blend (blend_dict c g l) c g l.
Proof. now repeat split. Qed.

Lemma has_blend_inj (d : gmap string R) (c g l c' g' l' : R) :
  has_blend d c g l -> has_blend d c' g' l' -> c = c' /\ g = g' /\ l = l'.
Proof.
  intros (H1 & H2 & H3) (H1' & H2' & H3').
  rewrite H1 in H1'. rewrite H2 in H2'. rewrite H3 in H3'.
  now inversion H1'; inversion H2'; inversion H3'.
Qed.

Lemma getitem_Some (d : gmap string R) (k : string) (v : R) :
  d !! k = Some v -> getitem d k = Ok v.
Proof. unfold getitem. now intros ->. Qed.

Lemma getitem_None (d : gmap string R) (k : string) :
  d !! k = None -> getitem d k = Raise (KeyError k).
Proof. unfold getitem. now intros ->. Qed.

(** ** Softmax *)

Section Softmax.

Lemma Rdiv_le_one (e s : R) : 0 < s -> e <= s -> e / s <= 1.
Proof.
  intros Hs He. apply (Rmult_le_reg_r s); [exact Hs|].
  unfold Rdiv. rewrite Rmult_assoc, Rinv_l by lra. lra.
Qed.

Lemma Rsum_cons (a : R) (l : list R) : Rsum (a :: l) = a + Rsum l.
Proof. reflexivity. Qed.

Lemma Rsum_map_div (l : list R) (s : R) :
  Rsum (map (fun e => e / s) l) = Rsum l / s.
Proof.
  induction l as [| e l IH].
  - cbn. unfold Rdiv. ring.
  - rewrite map_cons, !Rsum_cons, IH. unfold Rdiv. ring.
Qed.

(** *** The exponential with underflow *)

Lemma underflow_threshold : 0 < / 2 ^ 1075 <= 1.
Proof.
  assert (H : 1 <= 2 ^ 1075) by (apply pow_R1_Rle; lra).
  split.
  - apply Rinv_0_lt_compat. lra.
  - rewrite <- Rinv_1. apply Rinv_le_contravar; lra.
Qed.

Lemma exp_le_mono (x y : R) : x <= y -> exp x <= exp y.
Proof.
  intros [H | ->]; [left; now apply exp_increasing | lra].
Qed.

Lemma np_exp_0 : np_exp 0 = 1.
Proof.
  unfold np_exp. rewrite exp_0. pose proof underflow_threshold.
  destruct (Rlt_dec _ _); [lra | reflexivity].
Qed.

Lemma np_exp_nonneg (x : R) : 0 <= np_exp x.
Proof.
  unfold np_exp. pose proof (exp_pos x). destruct (Rlt_dec _ _); lra.
Qed.


Lemma np_exp_mono (x y : R) : x <= y -> np_exp x <= np_exp y.
Proof.
  intros H. apply exp_le_mono in H. unfold np_exp.
  pose proof (exp_pos y). do 2 destruct (Rlt_dec _ _); lra.
Qed.

Lemma np_exp_le_1 (x : R) : x <= 0 -> np_exp x <= 1.
Proof. intros H. rewrite <- np_exp_0. now apply np_exp_mono. Qed.



(** *** The greatest entry *)

Lemma foldl_Rmax_init (l : list R) (a : R) : a <= foldl Rmax a l.
Proof.
  revert a. induction l as [| x l IH]; intros a; cbn [foldl]; [lra|].
  eapply Rle_trans; [apply (Rmax_l a x) | apply IH].
Qed.

Lemma foldl_Rmax_elem (l : list R) (a v : R) : In v l -> v <= foldl Rmax a l.
Proof.
  revert a. induction l as [| x l IH]; intros a; cbn [foldl In]; [easy|].
  intros [-> | Hin].
  - eapply Rle_trans; [apply (Rmax_r a v) | apply foldl_Rmax_init].
  - now apply IH.
Qed.

Lemma foldl_Rmax_attained (l : list R) (a : R) :
  foldl Rmax a l = a \/ In (foldl Rmax a l) l.
Proof.
  revert a. induction l as [| x l IH]; intros a; cbn [foldl In];
    [now left|].
  destruct (IH (Rmax a x)) as [H | H]; [| now right; right].
  rewrite H. unfold Rmax. destruct (Rle_dec a x); [right; now left | now left].
Qed.

(** *** The weights [exp(x - max(x))] *)

Lemma weights_range (m : R) (l : list R) :
  Forall (fun v => v <= m) l ->
  Forall (fun w => 0 <= w <= 1) (map (fun v => np_exp (v - m)) l).
Proof.
  intros H. apply Forall_map. eapply Forall_impl; [exact H|].
  intros v Hv. cbn beta. split; [apply np_exp_nonneg|].
  apply np_exp_le_1. lra.
Qed.

Lemma Rsum_ge_entry (l : list R) (w : R) :
  Forall (fun v => 0 <= v <= 1) l -> In w l -> w <= Rsum l.
Proof.
  induction 1 as [| v l Hv Hl IH]; [easy|].
  rewrite Rsum_cons. intros [-> | Hin].
  - assert (0 <= Rsum l); [| lra].
    clear IH. induction Hl as [| u l Hu _ IH]; [cbn; lra|].
    rewrite Rsum_cons. lra.
  - specialize (IH Hin). lra.
Qed.

Lemma below_max (x0 : R) (xs : list R) :
  Forall (fun v => v <= foldl Rmax x0 xs) (x0 :: xs).
Proof.
  apply Forall_cons. split; [apply foldl_Rmax_init|].
  apply Forall_forall. intros v Hv.
  apply foldl_Rmax_elem, list_elem_of_In, Hv.
Qed.

(** The greatest entry has weight one, so the weights add up to at least
    one. *)
Lemma weights_sum_ge_1 (x0 : R) (xs : list R) :
  1 <= Rsum (map (fun v => np_exp (v - foldl Rmax x0 xs)) (x0 :: xs)).
Proof.
  set (m := foldl Rmax x0 xs).
  assert (Hin : In m (x0 :: xs)).
  { destruct (foldl_Rmax_attained xs x0) as [H | H];
      [left; now symmetry | now right]. }
  rewrite <- np_exp_0. replace 0 with (m - m) by ring.
  apply Rsum_ge_entry.
  - apply weights_range, below_max.
  - exact (in_map (fun v => np_exp (v - m)) _ _ Hin).
Qed.

(** [softmax] raises exactly on the empty array. *)
Lemma softmax_ok (x : list R) :
  x <> [] -> exists p, softmax x = Ok p /\ length p = length x.
Proof.
  destruct x as [| x0 xs]; [easy|]. intros _.
  eexists. split; [reflexivity|].
  now rewrite !length_map.
Qed.

(** The components of a softmax add up to one. *)
Lemma softmax_sum (x p : list R) : softmax x = Ok p -> Rsum p = 1.
Proof.
  destruct x as [| x0 xs]; [easy|].
  unfold softmax. simpl np_max. cbn [mbind result_bind].
  intros <-%Ok_inj. rewrite Rsum_map_div.
  pose proof (weights_sum_ge_1 x0 xs). apply Rdiv_diag. lra.
Qed.

(** Each component of a softmax is a probability. *)
Lemma softmax_range (x p : list R) :
  softmax x = Ok p -> Forall (fun v => 0 <= v <= 1) p.
Proof.
  destruct x as [| x0 xs]; [easy|].
  unfold softmax. simpl np_max. cbn [mbind result_bind].
  intros <-%Ok_inj. set (m := foldl Rmax x0 xs).
  pose proof (weights_sum_ge_1 x0 xs) as Hs. fold m in Hs.
  pose proof (weights_range m (x0 :: xs) (below_max x0 xs)) as Hw.
  apply Forall_forall. intros q Hq.
  apply list_elem_of_In, in_map_iff in Hq as (w & <- & Hin).
  pose proof (Rsum_ge_entry _ _ Hw Hin) as Hle.
  apply Forall_forall with (x := w) in Hw; [| now apply list_elem_of_In].
  split.
  - apply Rmult_le_pos; [lra|]. left. apply Rinv_0_lt_compat. lra.
  - apply Rdiv_le_one; lra.
Qed.

(** The weights of three scores. *)
Lemma weights3 (x y z : R) :
  let m := Rmax (Rmax x y) z in
  0 <= np_exp (x - m) <= 1 /\ 0 <= np_exp (y - m) <= 1 /\
  0 <= np_exp (z - m) <= 1 /\
  1 <= np_exp (x - m) + np_exp (y - m) + np_exp (z - m).
Proof.
  intros m.
  pose proof (weights_range m [x; y; z] (below_max x [y; z])) as Hw.
  pose proof (weights_sum_ge_1 x [y; z]) as Hs.
  cbn [foldl] in Hs. fold m in Hs.
  cbn [map] in Hw, Hs. rewrite !Rsum_cons in Hs. cbn [Rsum foldr] in Hs.
  apply Forall_cons in Hw as [Hx Hw]. apply Forall_cons in Hw as [Hy Hw].
  apply Forall_cons in Hw as [Hz _].
  repeat split; lra.
Qed.

Lemma softmax3 (x y z : R) :
  let m := Rmax (Rmax x y) z in
  let s := np_exp (x - m) + np_exp (y - m) + np_exp (z - m) in
  softmax [x; y; z]
  = Ok [np_exp (x - m) / s; np_exp (y - m) / s; np_exp (z - m) / s].
Proof.
  intros m s. unfold softmax. simpl np_max. cbn [mbind result_bind foldl].
  fold m. cbn [map]. rewrite !Rsum_cons. cbn [Rsum foldr].
  replace (np_exp (x - m) + (np_exp (y - m) + (np_exp (z - m) + 0)))
    with s by (subst s; ring).
  reflexivity.
Qed.

End Softmax.

Lemma clip_id (x : R) : 0 <= x <= 1 -> clip 0 1 x = x.
Proof.
  intros H. unfold clip.
  rewrite Rmax_left by lra. rewrite Rmin_left by lra. reflexivity.
Qed.

(** ** Normalize: [blend_emotions] *)

Section Normalize.

(** On three logits the blend is the softmax of the scaled logits. *)
Lemma blend_emotions3 (a b c alpha : R) :
  let m := Rmax (Rmax (a / alpha) (b / alpha)) (c / alpha) in
  let s := np_exp (a / alpha - m) + np_exp (b / alpha - m)
           + np_exp (c / alpha - m) in
  blend_emotions [a; b; c] alpha
  = Ok (blend_dict (np_exp (a / alpha - m) / s) (np_exp (b / alpha - m) / s)
          (np_exp (c / alpha - m) / s)).
Proof.
  intros m s. unfold blend_emotions. cbn [map].
  rewrite softmax3. cbn [mbind result_bind]. fold m. fold s.
  destruct (weights3 (a / alpha) (b / alpha) (c / alpha))
    as (Ha & Hb & Hc & Hs).
  fold m in Ha, Hb, Hc, Hs. fold s in Hs.
  assert (Hr : forall e, 0 <= e -> e <= s -> 0 <= e / s <= 1).
  { intros e He Hle. split.
    - apply Rmult_le_pos; [lra|]. left. apply Rinv_0_lt_compat. lra.
    - apply Rdiv_le_one; lra. }
  cbn [map]. rewrite !clip_id by (apply Hr; subst s; lra).
  reflexivity.
Qed.


Lemma scaled_le (x x' alpha : R) :
  0 < alpha -> x <= x' -> x / alpha <= x' / alpha.
Proof.
  intros Ha Hx. apply Rmult_le_compat_r; [| exact Hx].
  left. now apply Rinv_0_lt_compat.
Qed.


End Normalize.

(** Whatever the nonzero divisor, three logits give a distribution whose
    sum is exactly one: the clip changes nothing. *)
Lemma blend_emotions_triple (a b c t : R) :
  t <> 0 ->
  exists d, blend_emotions [a; b; c] t = Ok d /\ is_distribution 0 d.
Proof.
  intros _. unfold blend_emotions. cbn [map].
  destruct (softmax_ok [a / t; b / t; c / t]) as (p & Hp & Hlen); [easy|].
  pose proof (softmax_sum _ _ Hp) as Hsum.
  pose proof (softmax_range _ _ Hp) as Hrange.
  rewrite Hp. cbn [mbind result_bind].
  destruct p as [| pc [| pg [| pl [| ? ?]]]]; try discriminate Hlen.
  apply Forall_cons in Hrange as [Hc Hrange].
  apply Forall_cons in Hrange as [Hg Hrange].
  apply Forall_cons in Hrange as [Hl _].
  rewrite !Rsum_cons in Hsum. cbn in Hsum.
  cbn [map]. rewrite !clip_id by lra.
  eexists. split; [reflexivity|].
  exists pc, pg, pl. split; [apply has_blend_dict|].
  repeat split; try lra.
  replace (pc + pg + pl - 1) with 0 by lra.
  rewrite Rabs_R0. lra.
Qed.

Lemma is_distribution_weaken (tol tol' : R) (d : gmap string R) :
  tol <= tol' -> is_distribution tol d -> is_distribution tol' d.
Proof.
  intros Hle (c & g & l & Hb & Hc & Hg & Hl & Hs).
  exists c, g, l. split; [exact Hb|]. repeat split; lra.
Qed.

(** Equal scores weigh the same. *)
Lemma blend_emotions_equal (a alpha : R) :
  blend_emotions [a; a; a] alpha = Ok (blend_dict (1 / 3) (1 / 3) (1 / 3)).
Proof.
  rewrite blend_emotions3.
  replace (Rmax (Rmax (a / alpha) (a / alpha)) (a / alpha)) with (a / alpha)
    by (unfold Rmax; repeat destruct (Rle_dec _ _); lra).
  replace (a / alpha - a / alpha) with 0 by ring.
  rewrite np_exp_0. do 2 f_equal; lra.
Qed.

Lemma blend_emotions_uniform :
  blend_emotions [0; 0; 0] alpha_default
  = Ok (blend_dict (1 / 3) (1 / 3) (1 / 3)).
Proof. apply blend_emotions_equal. Qed.

(** C3 (as amended): the logits [0, 0, 0] normalize to exactly one third
    each, and that vector is labelled "hopeful calm": one third exceeds
    the pair threshold 0.3 for calm and lit, the first branch tested. *)
Theorem uniform_logits_hopeful_calm :
  blend_emotions [0; 0; 0] alpha_default
  = Ok (blend_dict (1 / 3) (1 / 3) (1 / 3)) /\
  has_blend (blend_dict (1 / 3) (1 / 3) (1 / 3)) (1 / 3) (1 / 3) (1 / 3) /\
  _detect_emotion_blend [1 / 3; 1 / 3; 1 / 3] = Ok "hopeful calm"%string.
Proof.
  split; [exact blend_emotions_uniform|].
  split; [apply has_blend_dict|].
  unfold _detect_emotion_blend. settle_gtb. reflexivity.
Qed.

(** C3 as stated fails: the label of the normalized uniform logits is not
    "neutral blend". *)
Lemma uniform_logits_not_neutral :
  ~ (exists d c g l,
       blend_emotions [0; 0; 0] alpha_default = Ok d /\
       has_blend d c g l /\
       Rabs (c - 1 / 3) <= 1 / 1000 /\ Rabs (g - 1 / 3) <= 1 / 1000 /\
       Rabs (l - 1 / 3) <= 1 / 1000 /\
       _detect_emotion_blend [c; g; l] = Ok "neutral blend"%string).
Proof.
  intros (d & c & g & l & Hd & Hb & _ & _ & _ & Hlabel).
  rewrite blend_emotions_uniform in Hd. apply Ok_inj in Hd. subst d.
  destruct (has_blend_inj _ _ _ _ _ _ _ Hb (has_blend_dict _ _ _))
    as (-> & -> & ->).
  revert Hlabel. unfold _detect_emotion_blend. settle_gtb. discriminate.
Qed.




Lemma small_in_range (v : R) : Rabs v <= 1000000 -> Rabs v <= DBL_MAX.
Proof.
  intros H. eapply Rle_trans; [exact H|].
  unfold DBL_MAX. apply IZR_le. vm_compute. discriminate.
Qed.

(** Scores that a quotient by the sharpness keeps below a million. *)
Ltac in_range :=
  repeat (apply Forall_cons; split;
          [apply small_in_range; apply Rabs_le; lra|]);
  apply Forall_nil; exact I.




(** ** Smooth: [smooth_blend] *)

Section Smooth.

Variables prev_blend new_blend : gmap string R.
Variable smoothing : R.

(** With the three labels in both dicts the loop runs to its end, and each
    entry is the interpolation rounded at three decimals: nothing is
    renormalized. *)
Lemma smooth_blend_ok (c g l pc pg pl : R) :
  has_blend new_blend c g l -> has_blend prev_blend pc pg pl ->
  smooth_blend prev_blend new_blend smoothing
  = Ok (blend_dict (py_round ((1 - smoothing) * c + smoothing * pc) 3)
          (py_round ((1 - smoothing) * g + smoothing * pg) 3)
          (py_round ((1 - smoothing) * l + smoothing * pl) 3)).
Proof.
  intros (Hc & Hg & Hl) (Hpc & Hpg & Hpl).
  unfold smooth_blend, EMOTION_LABELS. cbn [foldl]. unfold smooth_step.
  cbn [mbind result_bind].
  rewrite (getitem_Some _ _ _ Hc), (getitem_Some _ _ _ Hpc).
  cbn [mbind result_bind].
  rewrite (getitem_Some _ _ _ Hg), (getitem_Some _ _ _ Hpg).
  cbn [mbind result_bind].
  rewrite (getitem_Some _ _ _ Hl), (getitem_Some _ _ _ Hpl).
  cbn [mbind result_bind].
  reflexivity.
Qed.

End Smooth.

Lemma Rabs_triple (a b c : R) : Rabs (a + b + c) <= Rabs a + Rabs b + Rabs c.
Proof.
  eapply Rle_trans; [apply Rabs_triang|].
  pose proof (Rabs_triang a b). lra.
Qed.

Lemma Rabs_le_inv (x t : R) : Rabs x <= t -> - t <= x <= t.
Proof.
  unfold Rabs. destruct (Rcase_abs x); lra.
Qed.

Lemma py_round_three_decimals (x : R) : three_decimals (py_round x 3).
Proof.
  exists (rint (x * 10 ^ 3)). unfold py_round. f_equal. cbn [pow]. lra.
Qed.

(** What [smooth_blend] returns on two dicts that hold the three labels:
    three values of three decimals, each within half a thousandth of its
    interpolation.  Nothing is renormalized. *)
Lemma smooth_blend_close (prev new : gmap string R) (s c g l pc pg pl : R) :
  has_blend new c g l -> has_blend prev pc pg pl ->
  exists rc rg rl,
    smooth_blend prev new s = Ok (blend_dict rc rg rl) /\
    three_decimals rc /\ three_decimals rg /\ three_decimals rl /\
    Rabs (rc - ((1 - s) * c + s * pc)) <= 5 / 10000 /\
    Rabs (rg - ((1 - s) * g + s * pg)) <= 5 / 10000 /\
    Rabs (rl - ((1 - s) * l + s * pl)) <= 5 / 10000.
Proof.
  intros Hnew Hprev. eexists _, _, _.
  split; [exact (smooth_blend_ok _ _ _ _ _ _ _ _ _ Hnew Hprev)|].
  do 3 (split; [apply py_round_three_decimals|]).
  repeat split;
    (eapply Rle_trans; [apply py_round_near | cbn [pow]; lra]).
Qed.

(** Three values of three decimals whose sum is within 0.0015 of a number
    within 1e-6 of one add up to 0.999, 1 or 1.001. *)
Lemma grid_sum_near_one (rc rg rl total : R) :
  three_decimals rc -> three_decimals rg -> three_decimals rl ->
  Rabs (rc + rg + rl - total) <= 15 / 10000 ->
  Rabs (total - 1) <= tolerance ->
  Rabs (rc + rg + rl - 1) <= 1 / 1000.
Proof.
  intros (kc & ->) (kg & ->) (kl & ->) Hnear Htotal.
  apply Rabs_le_inv in Hnear. apply Rabs_le_inv in Htotal.
  unfold tolerance in Htotal.
  assert (Hsum : IZR kc / 1000 + IZR kg / 1000 + IZR kl / 1000
                 = IZR (kc + kg + kl) / 1000)
    by (rewrite !plus_IZR; lra).
  rewrite Hsum in *.
  assert (Hlo : (999 <= kc + kg + kl)%Z) by (apply IZR_gap; lra).
  assert (Hhi : (kc + kg + kl <= 1001)%Z) by (apply IZR_gap; lra).
  apply IZR_le in Hlo, Hhi. apply Rabs_le. lra.
Qed.

Lemma is_distribution_exact (c g l : R) :
  0 <= c <= 1 -> 0 <= g <= 1 -> 0 <= l <= 1 -> c + g + l = 1 ->
  is_distribution tolerance (blend_dict c g l).
Proof.
  intros Hc Hg Hl Hs. exists c, g, l.
  split; [apply has_blend_dict|]. do 3 (split; [assumption|]).
  replace (c + g + l - 1) with 0 by lra.
  rewrite Rabs_R0. unfold tolerance. lra.
Qed.

(** C4 (as amended): for two distributions that sum to one within 1e-6
    and a retention in [0,1], [smooth_blend] returns three values of three
    decimals, each within 0.0005 of its interpolation
    (1 - retention) * cur + retention * prev, and not renormalized; they
    add up to one within 0.001. *)
Theorem smooth_blend_sum (prev cur : gmap string R) (retention : R) :
  is_distribution tolerance prev -> is_distribution tolerance cur ->
  0 <= retention <= 1 ->
  exists c g l pc pg pl rc rg rl,
    has_blend cur c g l /\ has_blend prev pc pg pl /\
    smooth_blend prev cur retention = Ok (blend_dict rc rg rl) /\
    three_decimals rc /\ three_decimals rg /\ three_decimals rl /\
    Rabs (rc - ((1 - retention) * c + retention * pc)) <= 5 / 10000 /\
    Rabs (rg - ((1 - retention) * g + retention * pg)) <= 5 / 10000 /\
    Rabs (rl - ((1 - retention) * l + retention * pl)) <= 5 / 10000 /\
    Rabs (rc + rg + rl - 1) <= 1 / 1000.
Proof.
  intros (pc & pg & pl & Hprev & _ & _ & _ & Hps)
         (c & g & l & Hcur & _ & _ & _ & Hcs) Hr.
  destruct (smooth_blend_close prev cur retention _ _ _ _ _ _ Hcur Hprev)
    as (rc & rg & rl & Hok & Hdc & Hdg & Hdl & Hc & Hg & Hl).
  exists c, g, l, pc, pg, pl, rc, rg, rl.
  do 9 (split; [assumption|]).
  set (ic := (1 - retention) * c + retention * pc) in *.
  set (ig := (1 - retention) * g + retention * pg) in *.
  set (il := (1 - retention) * l + retention * pl) in *.
  apply (grid_sum_near_one rc rg rl (ic + ig + il)); try assumption.
  - replace (rc + rg + rl - (ic + ig + il))
      with ((rc - ic) + (rg - ig) + (rl - il)) by ring.
    eapply Rle_trans; [apply Rabs_triple|]. lra.
  - replace (ic + ig + il - 1)
      with ((1 - retention) * (c + g + l - 1)
            + retention * (pc + pg + pl - 1)) by (subst ic ig il; ring).
    eapply Rle_trans; [apply Rabs_triang|].
    rewrite !Rabs_mult, (Rabs_pos_eq (1 - retention)),
      (Rabs_pos_eq retention) by lra.
    pose proof (Rabs_pos (c + g + l - 1)).
    pose proof (Rabs_pos (pc + pg + pl - 1)).
    unfold tolerance in *. nra.
Qed.

Lemma smooth_blend_sum_witness :
  exists c g l pc pg pl rc rg rl,
    has_blend (blend_dict (1 / 2) (1 / 2) 0) c g l /\
    has_blend (blend_dict 1 0 0) pc pg pl /\
    smooth_blend (blend_dict 1 0 0) (blend_dict (1 / 2) (1 / 2) 0) (3 / 10)
    = Ok (blend_dict rc rg rl) /\
    three_decimals rc /\ three_decimals rg /\ three_decimals rl /\
    Rabs (rc - ((1 - 3 / 10) * c + 3 / 10 * pc)) <= 5 / 10000 /\
    Rabs (rg - ((1 - 3 / 10) * g + 3 / 10 * pg)) <= 5 / 10000 /\
    Rabs (rl - ((1 - 3 / 10) * l + 3 / 10 * pl)) <= 5 / 10000 /\
    Rabs (rc + rg + rl - 1) <= 1 / 1000.
Proof.
  apply (smooth_blend_sum (blend_dict 1 0 0) (blend_dict (1 / 2) (1 / 2) 0)
           (3 / 10)).
  - apply is_distribution_exact; lra.
  - apply is_distribution_exact; lra.
  - lra.
Defined.

Lemma smooth_blend_uniform (prev : gmap string R) (pc pg pl s : R) :
  has_blend prev pc pg pl ->
  (1 - s) * (1 / 3) + s * pc = 1 / 3 ->
  (1 - s) * (1 / 3) + s * pg = 1 / 3 ->
  (1 - s) * (1 / 3) + s * pl = 1 / 3 ->
  smooth_blend prev uniform_blend s = Ok uniform_rounded.
Proof.
  intros Hprev Ec Eg El.
  rewrite (smooth_blend_ok prev uniform_blend s _ _ _ _ _ _
             (has_blend_dict _ _ _) Hprev).
  rewrite Ec, Eg, El, round_third. reflexivity.
Qed.

Lemma uniform_rounded_sum : ~ sums_to_one tolerance uniform_rounded.
Proof.
  intros (c & g & l & Hb & Hs).
  destruct (has_blend_inj _ _ _ _ _ _ _ Hb (has_blend_dict _ _ _))
    as (-> & -> & ->).
  apply Rabs_le_inv in Hs. unfold tolerance in Hs. lra.
Qed.

(** C4 as stated fails: smoothing the uniform distribution with itself at
    retention 0.3 returns 0.333 three times, whose sum 0.999 is further
    than 1e-6 from one. *)
Lemma smooth_blend_sum_drifts :
  is_distribution tolerance uniform_blend /\
  0 <= 3 / 10 <= 1 /\
  smooth_blend uniform_blend uniform_blend (3 / 10) = Ok uniform_rounded /\
  ~ sums_to_one tolerance uniform_rounded.
Proof.
  split; [apply is_distribution_exact; lra|].
  split; [lra|].
  split; [| exact uniform_rounded_sum].
  apply (smooth_blend_uniform _ (1 / 3) (1 / 3) (1 / 3));
    [apply has_blend_dict | lra ..].
Qed.

(** C5 (as amended): at retention 0 [smooth_blend] returns the current
    blend rounded at three decimals, at retention 1 the previous blend
    rounded at three decimals, component by component. *)
Theorem smooth_blend_endpoints (prev cur : gmap string R)
    (c g l pc pg pl : R) :
  has_blend cur c g l -> has_blend prev pc pg pl ->
  smooth_blend prev cur 0
  = Ok (blend_dict (py_round c 3) (py_round g 3) (py_round l 3)) /\
  smooth_blend prev cur 1
  = Ok (blend_dict (py_round pc 3) (py_round pg 3) (py_round pl 3)).
Proof.
  intros Hcur Hprev.
  rewrite !(smooth_blend_ok prev cur _ _ _ _ _ _ _ Hcur Hprev).
  split; do 2 f_equal; f_equal; ring.
Qed.

Lemma smooth_blend_endpoints_witness :
  smooth_blend (blend_dict 1 0 0) uniform_blend 0
  = Ok (blend_dict (py_round (1 / 3) 3) (py_round (1 / 3) 3)
          (py_round (1 / 3) 3)) /\
  smooth_blend (blend_dict 1 0 0) uniform_blend 1
  = Ok (blend_dict (py_round 1 3) (py_round 0 3) (py_round 0 3)).
Proof.
  apply (smooth_blend_endpoints (blend_dict 1 0 0) uniform_blend);
    apply has_blend_dict.
Defined.

Lemma uniform_rounded_differs : uniform_rounded <> uniform_blend.
Proof.
  intros H. apply (f_equal (fun d => d !! "calm"%string)) in H.
  change (Some (333 / 1000) = Some (1 / 3)) in H.
  injection H as H. lra.
Qed.

(** C5 as stated fails: with the uniform distribution as the current
    blend, retention 0 returns 0.333 three times, not the current blend;
    with it as the previous blend, retention 1 does the same. *)
Lemma smooth_blend_endpoints_round :
  is_distribution tolerance uniform_blend /\
  is_distribution tolerance (blend_dict 1 0 0) /\
  smooth_blend (blend_dict 1 0 0) uniform_blend 0 <> Ok uniform_blend /\
  smooth_blend uniform_blend (blend_dict 1 0 0) 1 <> Ok uniform_blend.
Proof.
  assert (Hd : forall a b c, 0 <= a <= 1 -> 0 <= b <= 1 -> 0 <= c <= 1 ->
                 a + b + c = 1 -> is_distribution tolerance (blend_dict a b c)).
  { intros a b c Ha Hb Hc Hs. exists a, b, c.
    split; [apply has_blend_dict|]. repeat split; try lra.
    replace (a + b + c - 1) with 0 by lra.
    rewrite Rabs_R0. unfold tolerance. lra. }
  split; [apply Hd; lra|]. split; [apply Hd; lra|].
  split.
  - rewrite (smooth_blend_uniform _ 1 0 0); [| apply has_blend_dict | lra ..].
    intros H%Ok_inj. now apply uniform_rounded_differs.
  - unfold uniform_blend at 1.
    rewrite (smooth_blend_ok _ _ 1 _ _ _ _ _ _
               (has_blend_dict 1 0 0) (has_blend_dict (1 / 3) (1 / 3) (1 / 3))).
    replace ((1 - 1) * 1 + 1 * (1 / 3)) with (1 / 3) by lra.
    replace ((1 - 1) * 0 + 1 * (1 / 3)) with (1 / 3) by lra.
    rewrite round_third.
    intros H%Ok_inj. now apply uniform_rounded_differs.
Qed.

(** ** Parameter validation *)



Lemma not_raises_Ok {A} (a : A) : ~ raises (Ok a).
Proof. intros (e & He). discriminate He. Qed.


(** ** MapToModulation: [compute_modulation] *)

Section Modulation.

(** With the three labels present, whatever their values, the parameters
    are computed. *)
Lemma compute_modulation_ok (d : gmap string R) (calm guarded lit : R) :
  has_blend d calm guarded lit ->
  compute_modulation d
  = Ok (Modulation
          (py_round ((lit - calm) * (8 / 100)) 3)
          (py_round (9 / 10 + lit * (2 / 10) - guarded * (5 / 100)) 3)
          (py_round (4 / 10 * calm + 25 / 100 * guarded + 9 / 10 * lit) 2)
          (py_round (120 * lit + 240 * guarded) 1)
          (if gtb calm (6 / 10) then "sine"%string
           else if gtb guarded (5 / 10) then "ease-in"%string
           else "cubic"%string)).
Proof.
  intros (Hc & Hg & Hl). unfold compute_modulation.
  rewrite (getitem_Some _ _ _ Hc). cbn [mbind result_bind].
  rewrite (getitem_Some _ _ _ Hg). cbn [mbind result_bind].
  rewrite (getitem_Some _ _ _ Hl). cbn [mbind result_bind].
  reflexivity.
Qed.

(** The first label missing, in the order calm, guarded, lit, is the one
    the [KeyError] names. *)
Lemma compute_modulation_missing (d : gmap string R) :
  (d !! "calm"%string = None ->
   compute_modulation d = Raise (KeyError "calm")) /\
  (is_Some (d !! "calm"%string) -> d !! "guarded"%string = None ->
   compute_modulation d = Raise (KeyError "guarded")) /\
  (is_Some (d !! "calm"%string) -> is_Some (d !! "guarded"%string) ->
   d !! "lit"%string = None ->
   compute_modulation d = Raise (KeyError "lit")).
Proof.
  unfold compute_modulation. repeat split.
  - intros Hc. now rewrite (getitem_None _ _ Hc).
  - intros [c Hc] Hg.
    rewrite (getitem_Some _ _ _ Hc). cbn [mbind result_bind].
    now rewrite (getitem_None _ _ Hg).
  - intros [c Hc] [g Hg] Hl.
    rewrite (getitem_Some _ _ _ Hc). cbn [mbind result_bind].
    rewrite (getitem_Some _ _ _ Hg). cbn [mbind result_bind].
    now rewrite (getitem_None _ _ Hl).
Qed.

End Modulation.

(** C7 (as amended): [compute_modulation] raises nothing on a normalized
    distribution, nor on any dict that holds the three labels, whatever
    the values (out of [0,1] included) and whatever other keys it has;
    with a label missing it raises [KeyError] for the first one missing.
    No validation precedes the arithmetic. *)
Theorem compute_modulation_errors (d : gmap string R) :
  (is_distribution tolerance d -> returns (compute_modulation d)) /\
  (forall c g l, has_blend d c g l -> returns (compute_modulation d)) /\
  (d !! "calm"%string = None ->
   compute_modulation d = Raise (KeyError "calm")) /\
  (is_Some (d !! "calm"%string) -> d !! "guarded"%string = None ->
   compute_modulation d = Raise (KeyError "guarded")) /\
  (is_Some (d !! "calm"%string) -> is_Some (d !! "guarded"%string) ->
   d !! "lit"%string = None ->
   compute_modulation d = Raise (KeyError "lit")).
Proof.
  split; [| split].
  - intros (c & g & l & Hb & _).
    eexists. exact (compute_modulation_ok _ _ _ _ Hb).
  - intros c g l Hb. eexists. exact (compute_modulation_ok _ _ _ _ Hb).
  - apply compute_modulation_missing.
Qed.

Lemma compute_modulation_errors_witness :
  returns (compute_modulation (blend_dict (1 / 2) (1 / 4) (1 / 4))).
Proof.
  apply (compute_modulation_errors (blend_dict (1 / 2) (1 / 4) (1 / 4))).
  exists (1 / 2), (1 / 4), (1 / 4). split; [apply has_blend_dict|].
  repeat split; try lra.
  replace (1 / 2 + 1 / 4 + 1 / 4 - 1) with 0 by lra.
  rewrite Rabs_R0. unfold tolerance. lra.
Defined.

(** C7 as stated fails: the dict [{calm: 2, guarded: -1, lit: 0}], whose
    entries are no probabilities, is not rejected; its parameters are
    computed. *)
Lemma malformed_distribution_accepted :
  ~ is_distribution tolerance (blend_dict 2 (-1) 0) /\
  ~ raises (compute_modulation (blend_dict 2 (-1) 0)) /\
  returns (compute_modulation (blend_dict 2 (-1) 0)).
Proof.
  split; [| split].
  - intros (c & g & l & Hb & Hc & _).
    destruct (has_blend_inj _ _ _ _ _ _ _ Hb (has_blend_dict _ _ _))
      as (-> & -> & ->).
    lra.
  - rewrite (compute_modulation_ok _ _ _ _ (has_blend_dict _ _ _)).
    apply not_raises_Ok.
  - eexists. apply compute_modulation_ok, has_blend_dict.
Qed.

(** Rewrites one [round] call to its value [n / 10^k]. *)
Ltac py_round_to n :=
  rewrite (py_round_eq _ _ n) by (cbn [pow]; lra).

Lemma compute_modulation_calm_corner :
  compute_modulation calm_corner
  = Ok (Modulation (-8 / 100) (9 / 10) (4 / 10) 0 "sine").
Proof.
  unfold calm_corner.
  rewrite (compute_modulation_ok _ _ _ _ (has_blend_dict _ _ _)).
  settle_gtb.
  py_round_to (-80)%Z. py_round_to 900%Z. py_round_to 40%Z. py_round_to 0%Z.
  do 2 f_equal; cbn [pow]; lra.
Qed.

Lemma compute_modulation_guarded_corner :
  compute_modulation guarded_corner
  = Ok (Modulation 0 (85 / 100) (25 / 100) 240 "ease-in").
Proof.
  unfold guarded_corner.
  rewrite (compute_modulation_ok _ _ _ _ (has_blend_dict _ _ _)).
  settle_gtb.
  py_round_to 0%Z. py_round_to 850%Z. py_round_to 25%Z. py_round_to 2400%Z.
  do 2 f_equal; cbn [pow]; lra.
Qed.

Lemma compute_modulation_lit_corner :
  compute_modulation lit_corner
  = Ok (Modulation (8 / 100) (11 / 10) (9 / 10) 120 "cubic").
Proof.
  unfold lit_corner.
  rewrite (compute_modulation_ok _ _ _ _ (has_blend_dict _ _ _)).
  settle_gtb.
  py_round_to 80%Z. py_round_to 1100%Z. py_round_to 90%Z. py_round_to 1200%Z.
  do 2 f_equal; cbn [pow]; lra.
Qed.

(** The range of the pitch shift and of the glow intensity over all
    distributions. *)
Lemma modulation_range (d : gmap string R) (m : modulation) :
  is_distribution tolerance d -> compute_modulation d = Ok m ->
  -8 / 100 <= tts_pitch_shift m <= 8 / 100 /\
  25 / 100 <= glow_intensity m <= 9 / 10.
Proof.
  intros (c & g & l & Hb & Hc & Hg & Hl & Hs) Hm.
  rewrite (compute_modulation_ok _ _ _ _ Hb) in Hm.
  apply Ok_inj in Hm. subst m. cbn [tts_pitch_shift glow_intensity].
  apply Rabs_le_inv in Hs. unfold tolerance in Hs.
  repeat split.
  - eapply Rle_trans; [| apply (py_round_ge _ 3 (-80)); cbn [pow]; lra].
    cbn [pow]; lra.
  - eapply Rle_trans; [apply (py_round_le _ 3 80); cbn [pow]; lra|].
    cbn [pow]; lra.
  - eapply Rle_trans; [| apply (py_round_ge _ 2 25); cbn [pow]; lra].
    cbn [pow]; lra.
  - eapply Rle_trans; [apply (py_round_le _ 2 90); cbn [pow]; lra|].
    cbn [pow]; lra.
Qed.

Lemma corner_distribution (c g l : R) :
  0 <= c <= 1 -> 0 <= g <= 1 -> 0 <= l <= 1 -> c + g + l = 1 ->
  is_distribution tolerance (blend_dict c g l).
Proof.
  intros Hc Hg Hl Hs. exists c, g, l.
  split; [apply has_blend_dict|]. repeat split; try lra.
  replace (c + g + l - 1) with 0 by lra.
  rewrite Rabs_R0. unfold tolerance. lra.
Qed.

(** C9 (as amended): at the calm corner the pitch shift is -0.08, the
    least over all distributions, the easing curve is "sine", and the glow
    intensity is 0.4; at the lit corner the pitch shift is 0.08, the
    greatest, the glow intensity is 0.9, the greatest, and the easing curve
    is "cubic".  The least glow intensity is 0.25, at the guarded
    corner. *)
Theorem modulation_corners :
  (exists m, compute_modulation calm_corner = Ok m /\
     tts_pitch_shift m = -8 / 100 /\ glow_intensity m = 4 / 10 /\
     glow_easing_curve m = "sine"%string) /\
  (exists m, compute_modulation lit_corner = Ok m /\
     tts_pitch_shift m = 8 / 100 /\ glow_intensity m = 9 / 10 /\
     glow_easing_curve m = "cubic"%string) /\
  (exists m, compute_modulation guarded_corner = Ok m /\
     glow_intensity m = 25 / 100) /\
  (forall d m, is_distribution tolerance d -> compute_modulation d = Ok m ->
     -8 / 100 <= tts_pitch_shift m <= 8 / 100 /\
     25 / 100 <= glow_intensity m <= 9 / 10).
Proof.
  split; [| split; [| split]].
  - eexists. split; [apply compute_modulation_calm_corner|]. now cbn.
  - eexists. split; [apply compute_modulation_lit_corner|]. now cbn.
  - eexists. split; [apply compute_modulation_guarded_corner|]. now cbn.
  - apply modulation_range.
Qed.

Lemma modulation_corners_witness :
  -8 / 100
  <= tts_pitch_shift (Modulation 0 (85 / 100) (25 / 100) 240 "ease-in")
  <= 8 / 100 /\
  25 / 100
  <= glow_intensity (Modulation 0 (85 / 100) (25 / 100) 240 "ease-in")
  <= 9 / 10.
Proof.
  destruct modulation_corners as (_ & _ & _ & H).
  apply (H guarded_corner).
  - apply corner_distribution; lra.
  - apply compute_modulation_guarded_corner.
Defined.

(** C9 as stated fails: the glow intensity at the calm corner, 0.4, is not
    the lowest; the guarded corner, a distribution too, has 0.25. *)
Lemma calm_glow_not_lowest :
  is_distribution tolerance guarded_corner /\
  exists m mc,
    compute_modulation guarded_corner = Ok m /\
    compute_modulation calm_corner = Ok mc /\
    glow_intensity m < glow_intensity mc.
Proof.
  split; [apply corner_distribution; lra|].
  do 2 eexists.
  split; [apply compute_modulation_guarded_corner|].
  split; [apply compute_modulation_calm_corner|].
  cbn. lra.
Qed.

(** ** Pipeline: [process_emotion_logits] *)

Lemma truthy_dict (d : gmap string R) : truthy (PyDict d) = true <-> d <> ∅.
Proof. cbn. apply bool_decide_eq_true. Qed.

Lemma falsy_cases (v : pyarg) :
  truthy v = false <-> v = PyNone \/ v = PyDict ∅.
Proof.
  destruct v as [| d]; cbn.
  - split; [now left | easy].
  - rewrite bool_decide_eq_false. split.
    + intros H. right. f_equal. now apply dec_stable.
    + intros [H | [= ->]]; [discriminate H | tauto].
Qed.

(** C10: the pipeline tests [prev_blend] for truthiness.  A falsy value,
    [None] or the empty dict, skips the smoothing and the blend vector
    returned is the normalized one; a non-empty dict is truthy and is
    smoothed against with retention 0.3. *)
Theorem process_emotion_logits_truthiness (logits : list R) :
  (forall v, truthy v = false ->
     process_emotion_logits logits v = unsmoothed logits) /\
  truthy PyNone = false /\
  truthy (PyDict ∅) = false /\
  (forall d, d <> ∅ ->
     truthy (PyDict d) = true /\
     process_emotion_logits logits (PyDict d) = smoothed logits d) /\
  (forall out, unsmoothed logits = Ok out ->
     blend_emotions logits alpha_default = Ok (blend_vector out)).
Proof.
  split; [| split; [| split; [| split]]].
  - intros v Hv. unfold process_emotion_logits, unsmoothed.
    rewrite Hv. destruct (blend_emotions logits alpha_default); reflexivity.
  - reflexivity.
  - apply falsy_cases. now right.
  - intros d Hd. apply truthy_dict in Hd. split; [exact Hd|].
    unfold process_emotion_logits, smoothed. rewrite Hd.
    destruct (blend_emotions logits alpha_default); reflexivity.
  - intros out. unfold unsmoothed.
    destruct (blend_emotions logits alpha_default) as [b | e];
      cbn [mbind result_bind]; [| discriminate].
    destruct (compute_modulation b); cbn [mbind result_bind];
      [| discriminate].
    now intros <-%Ok_inj.
Qed.

Lemma process_emotion_logits_truthiness_witness :
  process_emotion_logits [0; 0; 0] (PyDict ∅) = unsmoothed [0; 0; 0] /\
  process_emotion_logits [0; 0; 0] (PyDict calm_corner)
  = smoothed [0; 0; 0] calm_corner.
Proof.
  destruct (process_emotion_logits_truthiness [0; 0; 0]) as (Hf & _ & He & Ht & _).
  split.
  - apply Hf. exact He.
  - apply Ht. intros H. apply (f_equal (fun d => d !! "calm"%string)) in H.
    discriminate H.
Defined.

(** The two paths on the logits [0, 0, 0]: the empty dict leaves the
    thirds as they are, the calm corner pulls them and rounds them. *)
Example pipeline_empty_dict :
  process_emotion_logits [0; 0; 0] (PyDict ∅)
  = Ok (PipelineOutput uniform_blend
          (Modulation 0 (95 / 100) (52 / 100) 120 "cubic")).
Proof.
  unfold process_emotion_logits. rewrite blend_emotions_uniform.
  cbn [mbind result_bind].
  replace (truthy (PyDict ∅)) with false by (symmetry; apply falsy_cases; tauto).
  cbn [mbind result_bind].
  rewrite (compute_modulation_ok _ _ _ _ (has_blend_dict _ _ _)).
  settle_gtb. cbn [mbind result_bind].
  py_round_to 0%Z. py_round_to 950%Z. py_round_to 52%Z. py_round_to 1200%Z.
  unfold uniform_blend. do 3 f_equal; cbn [pow]; lra.
Qed.

Example pipeline_calm_prev :
  exists m,
    process_emotion_logits [0; 0; 0] (PyDict calm_corner)
    = Ok (PipelineOutput
            (blend_dict (533 / 1000) (233 / 1000) (233 / 1000)) m).
Proof.
  unfold process_emotion_logits. rewrite blend_emotions_uniform.
  cbn [mbind result_bind].
  replace (truthy (PyDict calm_corner)) with true
    by (symmetry; apply truthy_dict; intros H;
        apply (f_equal (fun d => d !! "calm"%string)) in H; discriminate H).
  cbn [as_dict mbind result_bind].
  rewrite (smooth_blend_ok _ _ _ _ _ _ _ _ _
             (has_blend_dict (1 / 3) (1 / 3) (1 / 3)) (has_blend_dict 1 0 0)).
  cbn [mbind result_bind]. unfold smoothing_default.
  py_round_to 533%Z. py_round_to 233%Z.
  replace (IZR 533 / 10 ^ 3) with (533 / 1000) by (cbn [pow]; lra).
  replace (IZR 233 / 10 ^ 3) with (233 / 1000) by (cbn [pow]; lra).
  rewrite (compute_modulation_ok _ _ _ _ (has_blend_dict _ _ _)).
  cbn [mbind result_bind]. eexists. reflexivity.
Qed.

(** * Further properties of the blend engine *)

(** ** Softmax on arrays of any length *)

(** X1: [softmax] of the empty array raises [ValueError]; of any other
    array it returns as many components, each in [0,1], adding up to one
    within 1e-6. *)
Theorem softmax_probability_vector (x : list R) :
  (x = [] -> softmax x = Raise ValueError) /\
  (x <> [] ->
   exists p, softmax x = Ok p /\ length p = length x /\
             Forall (fun v => 0 <= v <= 1) p /\
             Rabs (Rsum p - 1) <= tolerance).
Proof.
  split.
  - now intros ->.
  - intros Hx. destruct (softmax_ok x Hx) as (p & Hp & Hlen).
    exists p. repeat split; try assumption.
    + now apply (softmax_range x).
    + rewrite (softmax_sum x p Hp).
      replace (1 - 1) with 0 by ring. rewrite Rabs_R0. unfold tolerance. lra.
Qed.

Lemma softmax_probability_vector_witness :
  exists p, softmax [3; -1; 0; 2] = Ok p /\ length p = length [3; -1; 0; 2] /\
            Forall (fun v => 0 <= v <= 1) p /\
            Rabs (Rsum p - 1) <= tolerance.
Proof.
  apply (softmax_probability_vector [3; -1; 0; 2]). discriminate.
Defined.

(** X2: three equal logits give the uniform blend, one third each, at
    every nonzero sharpness that keeps the scaled logit in the range of
    doubles; its label is "hopeful calm". *)
Theorem blend_emotions_equal_logits (a alpha : R) :
  alpha <> 0 -> scaled_in_range [a; a; a] alpha ->
  blend_emotions [a; a; a] alpha = Ok (blend_dict (1 / 3) (1 / 3) (1 / 3)) /\
  _detect_emotion_blend [1 / 3; 1 / 3; 1 / 3] = Ok "hopeful calm"%string.
Proof.
  intros _ _. split; [apply blend_emotions_equal|].
  unfold _detect_emotion_blend. settle_gtb. reflexivity.
Qed.

Lemma blend_emotions_equal_logits_witness :
  blend_emotions [5; 5; 5] (-2) = Ok (blend_dict (1 / 3) (1 / 3) (1 / 3)) /\
  _detect_emotion_blend [1 / 3; 1 / 3; 1 / 3] = Ok "hopeful calm"%string.
Proof.
  apply (blend_emotions_equal_logits 5 (-2)); [lra|].
  unfold scaled_in_range. in_range.
Defined.

(** X3: for a positive sharpness and scaled logits in the range of
    doubles the blend never ranks two labels against their logits: a
    label whose logit is at most another's has at most its
    probability. *)
Theorem blend_emotions_order (a b c alpha : R) :
  0 < alpha -> scaled_in_range [a; b; c] alpha ->
  exists pc pg pl,
    blend_emotions [a; b; c] alpha = Ok (blend_dict pc pg pl) /\
    (a <= b -> pc <= pg) /\ (b <= a -> pg <= pc) /\
    (b <= c -> pg <= pl) /\ (c <= b -> pl <= pg) /\
    (a <= c -> pc <= pl) /\ (c <= a -> pl <= pc).
Proof.
  intros Ha _. eexists _, _, _. split; [apply blend_emotions3|].
  destruct (weights3 (a / alpha) (b / alpha) (c / alpha)) as (_ & _ & _ & Hs).
  cbv zeta in Hs.
  set (m := Rmax (Rmax (a / alpha) (b / alpha)) (c / alpha)) in *.
  assert (Hmono : forall u v, u <= v ->
            np_exp (u / alpha - m) / (np_exp (a / alpha - m)
              + np_exp (b / alpha - m) + np_exp (c / alpha - m))
            <= np_exp (v / alpha - m) / (np_exp (a / alpha - m)
              + np_exp (b / alpha - m) + np_exp (c / alpha - m))).
  { intros u v Huv. apply Rmult_le_compat_r.
    - left. apply Rinv_0_lt_compat. lra.
    - apply np_exp_mono. pose proof (scaled_le u v alpha Ha Huv). lra. }
  repeat split; apply Hmono.
Qed.

Lemma blend_emotions_order_witness :
  exists pc pg pl,
    blend_emotions [1; 2; 0] (7 / 10) = Ok (blend_dict pc pg pl) /\
    (1 <= 2 -> pc <= pg) /\ (2 <= 1 -> pg <= pc) /\
    (2 <= 0 -> pg <= pl) /\ (0 <= 2 -> pl <= pg) /\
    (1 <= 0 -> pc <= pl) /\ (0 <= 1 -> pl <= pc).
Proof.
  apply (blend_emotions_order 1 2 0 (7 / 10)); [lra|].
  unfold scaled_in_range. in_range.
Defined.



Lemma Rsum_nonneg (l : list R) : Forall (fun v => 0 <= v <= 1) l -> 0 <= Rsum l.
Proof.
  induction 1 as [| v l Hv _ IH]; [cbn; lra|].
  rewrite Rsum_cons. lra.
Qed.

(** X5: of more than three logits the blend keeps the first three
    probabilities of the softmax over all of them, so they need not add up
    to one: when the fourth logit is at least each of the first three, at
    a positive sharpness, the three values returned add up to at most
    three quarters. *)
Theorem blend_emotions_extra_logits (a b c d : R) (rest : list R)
    (alpha : R) :
  0 < alpha -> scaled_in_range (a :: b :: c :: d :: rest) alpha ->
  a <= d -> b <= d -> c <= d ->
  exists pc pg pl,
    blend_emotions (a :: b :: c :: d :: rest) alpha
    = Ok (blend_dict pc pg pl) /\
    0 <= pc /\ 0 <= pg /\ 0 <= pl /\ pc + pg + pl <= 3 / 4.
Proof.
  intros Halpha _ Ha Hb Hc.
  unfold blend_emotions. cbn [map].
  set (x := a / alpha :: b / alpha :: c / alpha :: d / alpha
            :: map (fun l => l / alpha) rest).
  set (m := foldl Rmax (a / alpha)
              (b / alpha :: c / alpha :: d / alpha
               :: map (fun l => l / alpha) rest)).
  set (w := map (fun v => np_exp (v - m)) x).
  assert (Hp : softmax x = Ok (map (fun e => e / Rsum w) w)) by reflexivity.
  pose proof (softmax_sum _ _ Hp) as Hsum.
  pose proof (softmax_range _ _ Hp) as Hrange.
  pose proof (weights_sum_ge_1 (a / alpha)
                (b / alpha :: c / alpha :: d / alpha
                 :: map (fun l => l / alpha) rest)) as Hs.
  fold m in Hs. fold x in Hs. fold w in Hs.
  rewrite Hp. cbn [mbind result_bind].
  subst w x. cbn [map] in *.
  set (s := Rsum _) in *.
  apply Forall_cons in Hrange as [Hpc Hrange].
  apply Forall_cons in Hrange as [Hpg Hrange].
  apply Forall_cons in Hrange as [Hpl Hrange].
  apply Forall_cons in Hrange as [Hpd Hrange].
  apply Rsum_nonneg in Hrange.
  rewrite !Rsum_cons in Hsum.
  assert (Hle : forall u, u <= d ->
            np_exp (u / alpha - m) / s <= np_exp (d / alpha - m) / s).
  { intros u Hu. apply Rmult_le_compat_r.
    - left. apply Rinv_0_lt_compat. lra.
    - apply np_exp_mono. pose proof (scaled_le u d alpha Halpha Hu). lra. }
  pose proof (Hle a Ha). pose proof (Hle b Hb). pose proof (Hle c Hc).
  eexists _, _, _. split.
  - rewrite !(clip_id (np_exp (a / alpha - m) / s)),
      !(clip_id (np_exp (b / alpha - m) / s)),
      !(clip_id (np_exp (c / alpha - m) / s)) by lra.
    reflexivity.
  - repeat split; lra.
Qed.

Lemma blend_emotions_extra_logits_witness :
  exists pc pg pl,
    blend_emotions [1; 1; 1; 1; 0] (7 / 10) = Ok (blend_dict pc pg pl) /\
    0 <= pc /\ 0 <= pg /\ 0 <= pl /\ pc + pg + pl <= 3 / 4.
Proof.
  apply (blend_emotions_extra_logits 1 1 1 1 [0] (7 / 10)); try lra.
  unfold scaled_in_range. in_range.
Defined.

(** ** Rounding is monotone *)

Lemma rint_le_half (x : R) (n : Z) : x < IZR n + 1 / 2 -> (rint x <= n)%Z.
Proof.
  intros Hx. pose proof (rint_near x) as Hr. apply IZR_gap. lra.
Qed.

Lemma rint_mono (x y : R) : x <= y -> (rint x <= rint y)%Z.
Proof.
  intros Hxy.
  destruct (Z_le_gt_dec (rint x) (rint y)) as [Hle | Hgt]; [exact Hle|].
  pose proof (rint_near x) as Hx. pose proof (rint_near y) as Hy.
  assert (Hz : IZR (rint y) + 1 <= IZR (rint x)).
  { rewrite <- plus_IZR. apply IZR_le.
    apply Z.gt_lt in Hgt. apply Zlt_le_succ in Hgt. exact Hgt. }
  assert (Heq : x = y) by lra.
  subst y. apply Z.gt_lt, Z.lt_irrefl in Hgt. contradiction.
Qed.

Lemma py_round_mono (x y : R) (k : nat) :
  x <= y -> py_round x k <= py_round y k.
Proof.
  intros Hxy. unfold py_round. pose proof (pow10_pos k) as Hp.
  apply Rmult_le_compat_r; [left; now apply Rinv_0_lt_compat|].
  apply IZR_le, rint_mono. apply Rmult_le_compat_r; lra.
Qed.

Lemma py_round_unit (x : R) (k : nat) : 0 <= x <= 1 -> 0 <= py_round x k <= 1.
Proof.
  intros Hx. pose proof (pow10_pos k) as Hp. split.
  - eapply Rle_trans; [| apply (py_round_ge x k 0); nra].
    unfold Rdiv. rewrite Rmult_0_l. lra.
  - unfold py_round. apply Rdiv_le_one; [exact Hp|].
    rewrite pow_IZR. apply IZR_le.
    apply rint_le_half. rewrite <- pow_IZR. nra.
Qed.

(** ** More on [smooth_blend] *)

(** X6: [smooth_blend] raises exactly when one of the three labels is
    missing from one of the two dicts, and the [KeyError] names such a
    label. *)
Theorem smooth_blend_key_error (prev new : gmap string R) (s : R) :
  (forall e, smooth_blend prev new s = Raise e ->
     exists k, e = KeyError k /\ In k EMOTION_LABELS /\
               (new !! k = None \/ prev !! k = None)) /\
  ((exists k, In k EMOTION_LABELS /\ (new !! k = None \/ prev !! k = None)) ->
   raises (smooth_blend prev new s)).
Proof.
  unfold smooth_blend, EMOTION_LABELS, raises.
  cbn [foldl In]. unfold smooth_step, getitem. cbn [mbind result_bind].
  destruct (new !! "calm"%string) as [c|] eqn:Hc;
    destruct (prev !! "calm"%string) as [pc|] eqn:Hpc;
    destruct (new !! "guarded"%string) as [g|] eqn:Hg;
    destruct (prev !! "guarded"%string) as [pg|] eqn:Hpg;
    destruct (new !! "lit"%string) as [l|] eqn:Hl;
    destruct (prev !! "lit"%string) as [pl|] eqn:Hpl;
    cbn [mbind result_bind];
    (split;
     [ intros e He;
       first [ discriminate He
             | injection He as <-; eexists; split; [reflexivity | tauto] ]
     | intros (k & Hk & Hnone);
       first [ eexists; reflexivity
             | exfalso; destruct Hk as [<- | [<- | [<- | []]]];
               destruct Hnone; congruence ] ]).
Qed.

Lemma smooth_blend_key_error_witness :
  raises (smooth_blend (blend_dict 1 0 0) {["calm"%string := 1]} (3 / 10)).
Proof.
  apply (smooth_blend_key_error (blend_dict 1 0 0) {["calm"%string := 1]}).
  exists "guarded"%string. split; [cbn; tauto | left; reflexivity].
Defined.

(** X7: on two dicts whose three labels hold values in [0,1], with a
    retention in [0,1], [smooth_blend] returns a dict of exactly the three
    labels with values in [0,1]: the rounding does not leave the
    interval, and other keys of the inputs are dropped. *)
Theorem smooth_blend_unit_interval (prev new : gmap string R)
    (s c g l pc pg pl : R) :
  has_blend new c g l -> has_blend prev pc pg pl ->
  0 <= s <= 1 ->
  0 <= c <= 1 -> 0 <= g <= 1 -> 0 <= l <= 1 ->
  0 <= pc <= 1 -> 0 <= pg <= 1 -> 0 <= pl <= 1 ->
  exists rc rg rl,
    smooth_blend prev new s = Ok (blend_dict rc rg rl) /\
    0 <= rc <= 1 /\ 0 <= rg <= 1 /\ 0 <= rl <= 1.
Proof.
  intros Hnew Hprev Hs Hc Hg Hl Hpc Hpg Hpl.
  eexists _, _, _. split; [exact (smooth_blend_ok _ _ _ _ _ _ _ _ _ Hnew Hprev)|].
  repeat apply conj; apply py_round_unit; nra.
Qed.

Lemma smooth_blend_unit_interval_witness :
  exists rc rg rl,
    smooth_blend (<["extra"%string := 5]> (blend_dict 1 0 0)) uniform_blend
      (3 / 10)
    = Ok (blend_dict rc rg rl) /\
    0 <= rc <= 1 /\ 0 <= rg <= 1 /\ 0 <= rl <= 1.
Proof.
  apply (smooth_blend_unit_interval
           (<["extra"%string := 5]> (blend_dict 1 0 0)) uniform_blend
           (3 / 10) (1 / 3) (1 / 3) (1 / 3) 1 0 0);
    first [lra | now repeat split].
Defined.

(** ** Ranges of the modulation parameters *)

(** [n / 10^k] bounds a rounding from below, or from above, when it
    bounds the rounded value up to half a unit. *)
Ltac round_lower n k :=
  eapply Rle_trans; [| apply (py_round_ge _ k n); cbn [pow]; lra];
  cbn [pow]; lra.
Ltac round_upper n k :=
  eapply Rle_trans; [apply (py_round_le _ k n); cbn [pow]; lra|];
  cbn [pow]; lra.

(** X8: on every distribution [compute_modulation] returns a speed scale
    between 0.85 and 1.1 and a glow hue between 0 and 240 degrees. *)
Theorem compute_modulation_speed_hue (d : gmap string R) :
  is_distribution tolerance d ->
  exists m, compute_modulation d = Ok m /\
    85 / 100 <= tts_speed_scale m <= 11 / 10 /\
    0 <= glow_hue m <= 240.
Proof.
  intros (c & g & l & Hb & Hc & Hg & Hl & Hs).
  eexists. split; [exact (compute_modulation_ok _ _ _ _ Hb)|].
  cbn [tts_speed_scale glow_hue].
  apply Rabs_le_inv in Hs. unfold tolerance in Hs.
  repeat split.
  - round_lower 850%Z 3%nat.
  - round_upper 1100%Z 3%nat.
  - round_lower 0%Z 1%nat.
  - round_upper 2400%Z 1%nat.
Qed.

Lemma compute_modulation_speed_hue_witness :
  exists m, compute_modulation guarded_corner = Ok m /\
    85 / 100 <= tts_speed_scale m <= 11 / 10 /\
    0 <= glow_hue m <= 240.
Proof.
  apply (compute_modulation_speed_hue guarded_corner).
  apply corner_distribution; lra.
Defined.

(** ** The pipeline on three logits *)

Lemma blend_emotions3_distribution (a b c alpha : R) :
  exists nc ng nl,
    blend_emotions [a; b; c] alpha = Ok (blend_dict nc ng nl) /\
    0 <= nc <= 1 /\ 0 <= ng <= 1 /\ 0 <= nl <= 1 /\ nc + ng + nl = 1.
Proof.
  eexists _, _, _. split; [apply blend_emotions3|].
  destruct (weights3 (a / alpha) (b / alpha) (c / alpha))
    as (Ha & Hb & Hc & Hs).
  cbv zeta in *.
  set (m := Rmax (Rmax (a / alpha) (b / alpha)) (c / alpha)) in *.
  set (wa := np_exp (a / alpha - m)) in *.
  set (wb := np_exp (b / alpha - m)) in *.
  set (wc := np_exp (c / alpha - m)) in *.
  assert (Hr : forall e, 0 <= e -> e <= wa + wb + wc ->
                         0 <= e / (wa + wb + wc) <= 1).
  { intros e He Hle. split.
    - apply Rmult_le_pos; [lra|]. left. apply Rinv_0_lt_compat. lra.
    - apply Rdiv_le_one; lra. }
  repeat apply conj; try (apply Hr; lra).
  field. lra.
Qed.

(** X9: on three logits whose quotients by the default sharpness are in
    the range of doubles, and no previous blend, the pipeline always
    returns: the blend vector is a distribution, the pitch shift lies in
    [-0.08, 0.08], the speed scale in [0.85, 1.1], the glow intensity in
    [0.25, 0.9] and the hue in [0, 240]. *)
Theorem process_emotion_logits_fresh (a b c : R) :
  scaled_in_range [a; b; c] alpha_default ->
  exists out,
    process_emotion_logits [a; b; c] PyNone = Ok out /\
    is_distribution tolerance (blend_vector out) /\
    -8 / 100 <= tts_pitch_shift (out_modulation out) <= 8 / 100 /\
    85 / 100 <= tts_speed_scale (out_modulation out) <= 11 / 10 /\
    25 / 100 <= glow_intensity (out_modulation out) <= 9 / 10 /\
    0 <= glow_hue (out_modulation out) <= 240.
Proof.
  intros _.
  destruct (blend_emotions_triple a b c alpha_default) as (d & Hd & Hdist);
    [unfold alpha_default; lra|].
  assert (Htol : is_distribution tolerance d)
    by (apply (is_distribution_weaken 0); [unfold tolerance; lra | exact Hdist]).
  pose proof Htol as (pc & pg & pl & Hb & Hc & Hg & Hl & Hs).
  assert (Hm := compute_modulation_ok _ _ _ _ Hb).
  eexists. split.
  - unfold process_emotion_logits. rewrite Hd. cbn [truthy mbind result_bind].
    rewrite Hm. cbn [mbind result_bind]. reflexivity.
  - cbn [blend_vector out_modulation tts_pitch_shift tts_speed_scale
           glow_intensity glow_hue].
    split; [exact Htol|].
    apply Rabs_le_inv in Hs. unfold tolerance in Hs.
    repeat split.
    + round_lower (-80)%Z 3%nat.
    + round_upper 80%Z 3%nat.
    + round_lower 850%Z 3%nat.
    + round_upper 1100%Z 3%nat.
    + round_lower 25%Z 2%nat.
    + round_upper 90%Z 2%nat.
    + round_lower 0%Z 1%nat.
    + round_upper 2400%Z 1%nat.
Qed.

Lemma process_emotion_logits_fresh_witness :
  exists out,
    process_emotion_logits [2; 1 / 2; 1 / 2] PyNone = Ok out /\
    is_distribution tolerance (blend_vector out) /\
    -8 / 100 <= tts_pitch_shift (out_modulation out) <= 8 / 100 /\
    85 / 100 <= tts_speed_scale (out_modulation out) <= 11 / 10 /\
    25 / 100 <= glow_intensity (out_modulation out) <= 9 / 10 /\
    0 <= glow_hue (out_modulation out) <= 240.
Proof.
  apply (process_emotion_logits_fresh 2 (1 / 2) (1 / 2)).
  unfold scaled_in_range, alpha_default. in_range.
Defined.

(** X10: on three logits in that range and a previous blend whose three
    labels hold probabilities, the pipeline always returns; the blend
    vector has the three labels with values of three decimals in [0,1],
    each within 0.0005 of 0.7 * new + 0.3 * previous, and its sum is
    within 0.0015 of the sum of these interpolations. *)
Theorem process_emotion_logits_smoothed (a b c : R) (prev : gmap string R)
    (pc pg pl : R) :
  scaled_in_range [a; b; c] alpha_default ->
  has_blend prev pc pg pl ->
  0 <= pc <= 1 -> 0 <= pg <= 1 -> 0 <= pl <= 1 ->
  exists out nc ng nl rc rg rl,
    blend_emotions [a; b; c] alpha_default = Ok (blend_dict nc ng nl) /\
    process_emotion_logits [a; b; c] (PyDict prev) = Ok out /\
    blend_vector out = blend_dict rc rg rl /\
    three_decimals rc /\ three_decimals rg /\ three_decimals rl /\
    Rabs (rc - (7 / 10 * nc + 3 / 10 * pc)) <= 5 / 10000 /\
    Rabs (rg - (7 / 10 * ng + 3 / 10 * pg)) <= 5 / 10000 /\
    Rabs (rl - (7 / 10 * nl + 3 / 10 * pl)) <= 5 / 10000 /\
    0 <= rc <= 1 /\ 0 <= rg <= 1 /\ 0 <= rl <= 1 /\
    Rabs (rc + rg + rl - (7 / 10 + 3 / 10 * (pc + pg + pl)))
    <= 15 / 10000.
Proof.
  intros _ Hprev Hpc Hpg Hpl.
  destruct (blend_emotions3_distribution a b c alpha_default)
    as (nc & ng & nl & Hnew & Hnc & Hng & Hnl & Hsum).
  assert (Hne : prev <> ∅).
  { intros ->. destruct Hprev as (H & _). discriminate H. }
  apply truthy_dict in Hne.
  pose proof (smooth_blend_ok prev (blend_dict nc ng nl)
                smoothing_default _ _ _ _ _ _ (has_blend_dict _ _ _) Hprev)
    as Hsm.
  unfold smoothing_default in Hsm.
  replace (1 - 3 / 10) with (7 / 10) in Hsm by lra.
  set (ic := 7 / 10 * nc + 3 / 10 * pc) in *.
  set (ig := 7 / 10 * ng + 3 / 10 * pg) in *.
  set (il := 7 / 10 * nl + 3 / 10 * pl) in *.
  exists (PipelineOutput
            (blend_dict (py_round ic 3) (py_round ig 3) (py_round il 3))
            (Modulation
               (py_round ((py_round il 3 - py_round ic 3) * (8 / 100)) 3)
               (py_round (9 / 10 + py_round il 3 * (2 / 10)
                          - py_round ig 3 * (5 / 100)) 3)
               (py_round (4 / 10 * py_round ic 3 + 25 / 100 * py_round ig 3
                          + 9 / 10 * py_round il 3) 2)
               (py_round (120 * py_round il 3 + 240 * py_round ig 3) 1)
               (if gtb (py_round ic 3) (6 / 10) then "sine"%string
                else if gtb (py_round ig 3) (5 / 10) then "ease-in"%string
                else "cubic"%string))),
    nc, ng, nl, (py_round ic 3), (py_round ig 3), (py_round il 3).
  split; [exact Hnew|]. split.
  - unfold process_emotion_logits. rewrite Hnew. cbn [mbind result_bind].
    rewrite Hne. cbn [as_dict mbind result_bind].
    unfold smoothing_default. replace (1 - 3 / 10) with (7 / 10) in * by lra.
    rewrite Hsm. cbn [mbind result_bind].
    rewrite (compute_modulation_ok _ _ _ _ (has_blend_dict _ _ _)).
    reflexivity.
  - cbn [blend_vector].
    pose proof (py_round_near ic 3) as Hrc.
    pose proof (py_round_near ig 3) as Hrg.
    pose proof (py_round_near il 3) as Hrl.
    cbn [pow] in Hrc, Hrg, Hrl.
    split; [reflexivity|].
    do 3 (split; [apply py_round_three_decimals|]).
    do 3 (split; [eapply Rle_trans; [apply py_round_near | cbn [pow]; lra]|]).
    do 3 (split; [apply py_round_unit; subst ic ig il; nra|]).
    replace (py_round ic 3 + py_round ig 3 + py_round il 3
             - (7 / 10 + 3 / 10 * (pc + pg + pl)))
      with ((py_round ic 3 - ic) + (py_round ig 3 - ig) + (py_round il 3 - il))
      by (subst ic ig il; lra).
    eapply Rle_trans; [apply Rabs_triple|]. lra.
Qed.

Lemma process_emotion_logits_smoothed_witness :
  exists out nc ng nl rc rg rl,
    blend_emotions [0; 0; 0] alpha_default = Ok (blend_dict nc ng nl) /\
    process_emotion_logits [0; 0; 0] (PyDict calm_corner) = Ok out /\
    blend_vector out = blend_dict rc rg rl /\
    three_decimals rc /\ three_decimals rg /\ three_decimals rl /\
    Rabs (rc - (7 / 10 * nc + 3 / 10 * 1)) <= 5 / 10000 /\
    Rabs (rg - (7 / 10 * ng + 3 / 10 * 0)) <= 5 / 10000 /\
    Rabs (rl - (7 / 10 * nl + 3 / 10 * 0)) <= 5 / 10000 /\
    0 <= rc <= 1 /\ 0 <= rg <= 1 /\ 0 <= rl <= 1 /\
    Rabs (rc + rg + rl - (7 / 10 + 3 / 10 * (1 + 0 + 0))) <= 15 / 10000.
Proof.
  apply (process_emotion_logits_smoothed 0 0 0 calm_corner 1 0 0);
    first [lra | apply has_blend_dict
          | unfold scaled_in_range, alpha_default; in_range].
Defined.

(** * The inference helpers *)

(** ** The glow colour *)

Section Colour.

Lemma Int_part_ge (v : R) (n : Z) : IZR n <= v -> (n <= Int_part v)%Z.
Proof.
  intros H. pose proof (Int_part_bounds v). apply IZR_gap. lra.
Qed.

Lemma Int_part_le (v : R) (n : Z) : v <= IZR n -> (Int_part v <= n)%Z.
Proof.
  intros H. pose proof (Int_part_bounds v). apply le_IZR. lra.
Qed.

Lemma trunc_between (v : R) (lo hi : Z) :
  (0 <= lo)%Z -> IZR lo <= v <= IZR hi -> (lo <= trunc v <= hi)%Z.
Proof.
  intros Hlo [Hl Hh]. unfold trunc.
  assert (0 <= v) by (apply IZR_le in Hlo; lra).
  destruct (Rlt_dec v 0); [lra|].
  split; [now apply Int_part_ge | now apply Int_part_le].
Qed.

Lemma clip_between (lo hi v : R) : lo <= hi -> lo <= clip lo hi v <= hi.
Proof.
  intros H. unfold clip, Rmin, Rmax.
  destruct (Rle_dec v lo); destruct (Rle_dec _ hi); lra.
Qed.

Lemma clip_inside (lo hi v : R) : lo <= v <= hi -> clip lo hi v = v.
Proof.
  intros H. unfold clip, Rmin, Rmax.
  destruct (Rle_dec v lo); destruct (Rle_dec _ hi); lra.
Qed.

Lemma format_02x_byte (n : Z) :
  (0 <= n <= 255)%Z ->
  String.length (format_02x n) = 2%nat /\
  HexString.Raw.to_N (format_02x n) 0 = Z.to_N n.
Proof.
  intros Hn.
  assert (Hall : forallb (fun k => two_digits (Z.of_nat k)) (seq 0 256) = true)
    by (vm_compute; reflexivity).
  rewrite forallb_forall in Hall.
  specialize (Hall (Z.to_nat n)).
  rewrite Z2Nat.id in Hall by lia.
  assert (Hin : In (Z.to_nat n) (seq 0 256)) by (apply in_seq; lia).
  apply Hall in Hin. unfold two_digits in Hin.
  apply andb_true_iff in Hin as [H1 H2].
  split; [now apply Nat.eqb_eq | now apply N.eqb_eq].
Qed.

End Colour.

Lemma blended_rgb_eq (calm guarded lit : R) :
  blended_rgb calm guarded lit
  = [trunc (clip 0 255 (calm * 245 + guarded * 74 + lit * 126));
     trunc (clip 0 255 (calm * 158 + guarded * 144 + lit * 211));
     trunc (clip 0 255 (calm * 66 + guarded * 226 + lit * 33))].
Proof. reflexivity. Qed.

Lemma blended_rgb_bytes (calm guarded lit : R) :
  Forall (fun ch => (0 <= ch <= 255)%Z) (blended_rgb calm guarded lit).
Proof.
  rewrite blended_rgb_eq.
  repeat (apply Forall_cons; split;
          [apply trunc_between; [lia | apply (clip_between 0 255); lra]|]).
  apply Forall_nil. exact I.
Qed.

Lemma small_safe (v : R) : Rabs v <= 1000000 -> safe_entry v.
Proof.
  intros H. unfold safe_entry. eapply Rle_trans; [exact H|].
  apply IZR_le. vm_compute. discriminate.
Qed.

(** X11: [_interpolate_color] raises [ValueError] unless the vector has
    three entries; on three entries of a magnitude up to 1e300 it returns
    "#" followed by three channels of two hexadecimal digits each, every
    channel between 0 and 255 and read back from its two digits. *)
Theorem interpolate_color_wellformed (emotion_vector : list R) :
  (length emotion_vector <> 3%nat ->
   _interpolate_color emotion_vector = Raise ValueError) /\
  (forall calm guarded lit, emotion_vector = [calm; guarded; lit] ->
   safe_entry calm -> safe_entry guarded -> safe_entry lit ->
   exists r g b,
     _interpolate_color emotion_vector
     = Ok ("#" +:+ format_02x r +:+ format_02x g +:+ format_02x b)%string /\
     Forall (fun ch =>
               (0 <= ch <= 255)%Z /\
               String.length (format_02x ch) = 2%nat /\
               HexString.Raw.to_N (format_02x ch) 0 = Z.to_N ch)
       [r; g; b]).
Proof.
  split.
  - destruct emotion_vector as [| ? [| ? [| ? [| ? ?]]]]; try reflexivity.
    intros H. now contradiction H.
  - intros calm guarded lit -> _ _ _.
    pose proof (blended_rgb_bytes calm guarded lit) as Hb.
    rewrite blended_rgb_eq in Hb.
    eexists _, _, _. split; [reflexivity|].
    eapply Forall_impl; [exact Hb|].
    intros ch Hch. split; [exact Hch | now apply format_02x_byte].
Qed.

Lemma interpolate_color_wellformed_witness :
  exists r g b,
    _interpolate_color [1 / 2; 1 / 4; 1 / 4]
    = Ok ("#" +:+ format_02x r +:+ format_02x g +:+ format_02x b)%string /\
    Forall (fun ch =>
              (0 <= ch <= 255)%Z /\
              String.length (format_02x ch) = 2%nat /\
              HexString.Raw.to_N (format_02x ch) 0 = Z.to_N ch)
      [r; g; b].
Proof.
  apply (proj2 (interpolate_color_wellformed [1 / 2; 1 / 4; 1 / 4])
           (1 / 2) (1 / 4) (1 / 4));
    first [reflexivity | apply small_safe, Rabs_le; lra].
Defined.

Lemma Int_part_IZR (n : Z) : Int_part (IZR n) = n.
Proof. symmetry. apply Int_part_spec. lra. Qed.

Lemma trunc_clip_byte (v : R) (n : Z) :
  (0 <= n <= 255)%Z -> v = IZR n -> trunc (clip 0 255 v) = n.
Proof.
  intros Hn ->.
  assert (0 <= IZR n <= 255) by (split; apply IZR_le; lia).
  rewrite clip_inside by lra. unfold trunc.
  destruct (Rlt_dec _ _); [lra|]. apply Int_part_IZR.
Qed.

(** X12: on a vector of three non-negative entries that add up to one,
    every channel lies between the least and the greatest of the three
    anchor colours, and at the three corners the anchors themselves come
    out: "#f59e42" for calm, "#4a90e2" for guarded, "#7ed321" for lit. *)
Theorem interpolate_color_anchors (calm guarded lit : R) :
  0 <= calm -> 0 <= guarded -> 0 <= lit -> calm + guarded + lit = 1 ->
  (exists r g b,
     blended_rgb calm guarded lit = [r; g; b] /\
     (74 <= r <= 245)%Z /\ (144 <= g <= 211)%Z /\ (33 <= b <= 226)%Z) /\
  _interpolate_color [1; 0; 0] = Ok "#f59e42"%string /\
  _interpolate_color [0; 1; 0] = Ok "#4a90e2"%string /\
  _interpolate_color [0; 0; 1] = Ok "#7ed321"%string.
Proof.
  intros Hc Hg Hl Hs. split.
  - eexists _, _, _. split; [apply blended_rgb_eq|].
    split; [| split]; (apply trunc_between; [lia|]);
      (rewrite clip_inside by lra; lra).
  - unfold _interpolate_color. rewrite !blended_rgb_eq. cbn [nth].
    rewrite (trunc_clip_byte _ 245), (trunc_clip_byte _ 158),
      (trunc_clip_byte _ 66), (trunc_clip_byte _ 74),
      (trunc_clip_byte _ 144), (trunc_clip_byte _ 226),
      (trunc_clip_byte _ 126), (trunc_clip_byte _ 211),
      (trunc_clip_byte _ 33) by (lia || lra).
    repeat split; reflexivity.
Qed.

Lemma interpolate_color_anchors_witness :
  exists r g b,
    blended_rgb (1 / 2) (1 / 4) (1 / 4) = [r; g; b] /\
    (74 <= r <= 245)%Z /\ (144 <= g <= 211)%Z /\ (33 <= b <= 226)%Z.
Proof.
  apply (interpolate_color_anchors (1 / 2) (1 / 4) (1 / 4)); lra.
Defined.

(** ** The two modulation tables of inference.py *)

Lemma generate_blended_modulation_ok (calm guarded lit : R) :
  exists color,
    _interpolate_color [calm; guarded; lit] = Ok color /\
    _generate_blended_modulation [calm; guarded; lit]
    = Ok (Blended.Modulation
            (py_round (lit * (8 / 100) - calm * (2 / 100) + guarded * (3 / 100)) 3)
            (py_round (9 / 10 + lit * (25 / 100) - guarded * (5 / 100)) 3)
            (py_round (4 / 10 * calm + 25 / 100 * guarded + 9 / 10 * lit) 2)
            (if gtb calm (5 / 10) then "sine"%string
             else if gtb guarded (5 / 10) then "ease-in"%string
             else "cubic"%string)
            color).
Proof. eexists. split; reflexivity. Qed.

(** X13: on one distribution the blended table of inference.py and
    [compute_modulation] give the same glow intensity, and the same
    easing curve unless calm lies in (0.5, 0.6], where the blended table
    says "sine" and [compute_modulation] does not. *)
Theorem blended_modulation_agreement (calm guarded lit : R) :
  exists m mb,
    compute_modulation (blend_dict calm guarded lit) = Ok m /\
    _generate_blended_modulation [calm; guarded; lit] = Ok mb /\
    glow_intensity m = Blended.glow_intensity mb /\
    (glow_easing_curve m = Blended.glow_easing_curve mb
     <-> ~ 5 / 10 < calm <= 6 / 10) /\
    (5 / 10 < calm <= 6 / 10 ->
     Blended.glow_easing_curve mb = "sine"%string /\
     glow_easing_curve m <> "sine"%string).
Proof.
  destruct (generate_blended_modulation_ok calm guarded lit)
    as (color & _ & Hmb).
  eexists _, _.
  split; [exact (compute_modulation_ok _ _ _ _ (has_blend_dict _ _ _))|].
  split; [exact Hmb|].
  cbn [glow_intensity Blended.glow_intensity glow_easing_curve
         Blended.glow_easing_curve].
  split; [reflexivity|].
  destruct (Rlt_dec (6 / 10) calm) as [H6 | H6];
    [| destruct (Rlt_dec (5 / 10) calm) as [H5 | H5]].
  - rewrite !(gtb_true calm) by lra. split; [split; [lra | reflexivity]|].
    lra.
  - rewrite (gtb_false calm (6 / 10)), (gtb_true calm (5 / 10)) by lra.
    destruct (gtb guarded (5 / 10)); (split; [split|]);
      first [discriminate | lra | tauto | (intros _; split; [reflexivity | discriminate])].
  - rewrite !(gtb_false calm) by lra. split; [split; [lra | reflexivity]|].
    lra.
Qed.

(** X14: on every distribution the blended table returns a pitch shift
    between -0.02 and 0.08, a speed scale between 0.85 and 1.15 and a glow
    intensity between 0.25 and 0.9. *)
Theorem blended_modulation_ranges (calm guarded lit : R) :
  0 <= calm -> 0 <= guarded -> 0 <= lit -> calm + guarded + lit = 1 ->
  exists mb,
    _generate_blended_modulation [calm; guarded; lit] = Ok mb /\
    -2 / 100 <= Blended.tts_pitch_shift mb <= 8 / 100 /\
    85 / 100 <= Blended.tts_speed_scale mb <= 115 / 100 /\
    25 / 100 <= Blended.glow_intensity mb <= 9 / 10.
Proof.
  intros Hc Hg Hl Hs.
  destruct (generate_blended_modulation_ok calm guarded lit)
    as (color & _ & Hmb).
  eexists. split; [exact Hmb|].
  cbn [Blended.tts_pitch_shift Blended.tts_speed_scale Blended.glow_intensity].
  repeat split.
  - round_lower (-20)%Z 3%nat.
  - round_upper 80%Z 3%nat.
  - round_lower 850%Z 3%nat.
  - round_upper 1150%Z 3%nat.
  - round_lower 25%Z 2%nat.
  - round_upper 90%Z 2%nat.
Qed.

Lemma blended_modulation_ranges_witness :
  exists mb,
    _generate_blended_modulation [1 / 2; 1 / 4; 1 / 4] = Ok mb /\
    -2 / 100 <= Blended.tts_pitch_shift mb <= 8 / 100 /\
    85 / 100 <= Blended.tts_speed_scale mb <= 115 / 100 /\
    25 / 100 <= Blended.glow_intensity mb <= 9 / 10.
Proof.
  apply (blended_modulation_ranges (1 / 2) (1 / 4) (1 / 4)); lra.
Defined.

(** X15: the discrete table needs three probabilities ([IndexError]
    otherwise).  On a distribution its glow intensity is the greatest of
    the three probabilities rounded at two decimals, at least 0.33; its
    pitch shift lies in [-0.08, 0.08] and its speed scale in
    [0.9, 1.1]. *)
Theorem generate_modulation_discrete (probs : list R) (emotion : string) :
  ((length probs < 3)%nat -> _generate_modulation probs emotion = None) /\
  (forall p0 p1 p2, probs = [p0; p1; p2] ->
   0 <= p0 -> 0 <= p1 -> 0 <= p2 -> p0 + p1 + p2 = 1 ->
   exists m,
     _generate_modulation probs emotion = Some m /\
     Discrete.glow_intensity m = py_round (Rmax (Rmax p0 p1) p2) 2 /\
     33 / 100 <= Discrete.glow_intensity m <= 1 /\
     -8 / 100 <= Discrete.tts_pitch_shift m <= 8 / 100 /\
     9 / 10 <= Discrete.tts_speed_scale m <= 11 / 10).
Proof.
  split.
  - destruct probs as [| ? [| ? [| ? ?]]]; cbn; intros H;
      first [reflexivity | lia].
  - intros p0 p1 p2 -> H0 H1 H2 Hs.
    eexists. split; [reflexivity|].
    cbn [Discrete.glow_intensity Discrete.tts_pitch_shift
           Discrete.tts_speed_scale tail foldl].
    split; [reflexivity|].
    assert (Hmax : 1 / 3 <= Rmax (Rmax p0 p1) p2 <= 1).
    { unfold Rmax. do 2 destruct (Rle_dec _ _); lra. }
    repeat split.
    + round_lower 33%Z 2%nat.
    + round_upper 100%Z 2%nat.
    + round_lower (-80)%Z 3%nat.
    + round_upper 80%Z 3%nat.
    + round_lower 900%Z 3%nat.
    + round_upper 1100%Z 3%nat.
Qed.

Lemma generate_modulation_discrete_witness :
  _generate_modulation [1 / 2; 1 / 2] "calm" = None.
Proof.
  apply (generate_modulation_discrete [1 / 2; 1 / 2] "calm"). cbn. lia.
Defined.

Lemma blended_modulation_agreement_witness :
  exists m mb,
    compute_modulation (blend_dict (55 / 100) (25 / 100) (2 / 10)) = Ok m /\
    _generate_blended_modulation [55 / 100; 25 / 100; 2 / 10] = Ok mb /\
    Blended.glow_easing_curve mb = "sine"%string /\
    glow_easing_curve m <> "sine"%string.
Proof.
  destruct (blended_modulation_agreement (55 / 100) (25 / 100) (2 / 10))
    as (m & mb & Hm & Hmb & _ & _ & H).
  exists m, mb. split; [exact Hm|]. split; [exact Hmb|].
  apply H. lra.
Defined.

(** ** The rule-based scores *)

Section RuleBasedProperties.

Variable str_lower : string -> string.

Lemma add_indicators_ge (text : string) (indicators : list string)
    (step score : R) :
  0 <= step -> score <= add_indicators text indicators step score.
Proof.
  intros Hstep. unfold add_indicators. revert score.
  induction indicators as [| w ws IH]; intros score; cbn [foldl]; [lra|].
  destruct (str_contains text w).
  - eapply Rle_trans; [| apply IH]. lra.
  - apply IH.
Qed.


(** X16: the rule-based classifier returns a probability vector for
    every transcript and every waveform, the empty one included: three
    components, each strictly between 0 and 1, adding up to one. *)
Theorem rule_based_probabilities (transcript : string) (waveform : list R)
    (sr : Z) :
  exists calm guarded lit,
    _rule_based_classification str_lower transcript waveform sr
    = [calm; guarded; lit] /\
    0 < calm < 1 /\ 0 < guarded < 1 /\ 0 < lit < 1 /\
    calm + guarded + lit = 1.
Proof.
  unfold _rule_based_classification.
  set (text := str_lower transcript).
  pose proof (add_indicators_ge text calm_indicators (1 / 10) (33 / 100)
                ltac:(lra)) as Hc.
  pose proof (add_indicators_ge text guarded_indicators (1 / 10) (33 / 100)
                ltac:(lra)) as Hg.
  pose proof (add_indicators_ge text lit_indicators (15 / 100) (33 / 100)
                ltac:(lra)) as Hl.
  set (c := add_indicators text calm_indicators _ _) in *.
  set (g := add_indicators text guarded_indicators _ _) in *.
  set (l := add_indicators text lit_indicators _ _) in *.
  assert (Hshare : forall x y z, 33 / 100 <= x -> 33 / 100 <= y ->
            33 / 100 <= z ->
            0 < x / (x + y + z) < 1 /\ 0 < y / (x + y + z) < 1 /\
            0 < z / (x + y + z) < 1 /\
            x / (x + y + z) + y / (x + y + z) + z / (x + y + z) = 1).
  { intros x y z Hx Hy Hz.
    assert (Ht : 0 < x + y + z) by lra.
    assert (Hlt : forall e, 0 < e -> e < x + y + z ->
                            0 < e / (x + y + z) < 1).
    { intros e He Hlt. split; [now apply Rdiv_lt_0_compat|].
      apply (Rmult_lt_reg_r (x + y + z)); [exact Ht|].
      unfold Rdiv. rewrite Rmult_assoc, Rinv_l by lra. lra. }
    repeat split; try (apply Hlt; lra). field. lra. }
  destruct (nan_gtb (rms waveform) (5 / 10));
    [| destruct (nan_ltb (rms waveform) (2 / 10))];
    cbn [map]; eexists _, _, _; (split; [reflexivity|]);
    apply Hshare; lra.
Qed.


End RuleBasedProperties.


(** * utils/normalization.py *)

Section Arrays.

Lemma np_add_same_length (a b : list R) :
  length a = length b -> np_add a b = Ok (zip_with Rplus a b).
Proof. intros H. unfold np_add. now rewrite decide_True. Qed.

Lemma Rsum_scale (k : R) (a : list R) : Rsum (map (Rmult k) a) = k * Rsum a.
Proof.
  induction a as [| x a IH]; [cbn; ring|].
  rewrite map_cons, !Rsum_cons, IH. ring.
Qed.

Lemma Rsum_zip_plus (a b : list R) :
  length a = length b -> Rsum (zip_with Rplus a b) = Rsum a + Rsum b.
Proof.
  revert b. induction a as [| x a IH]; intros [| y b] Hlen;
    try discriminate Hlen.
  - cbn. ring.
  - cbn [zip_with]. rewrite !Rsum_cons, IH by (now injection Hlen). ring.
Qed.

Lemma convex_zip (alpha : R) (a b : list R) :
  0 <= alpha <= 1 ->
  Forall (fun v => 0 <= v <= 1) a -> Forall (fun v => 0 <= v <= 1) b ->
  Forall (fun v => 0 <= v <= 1)
    (zip_with Rplus (map (Rmult alpha) a) (map (Rmult (1 - alpha)) b)).
Proof.
  intros Halpha Ha. revert b.
  induction Ha as [| x a Hx _ IH]; intros b Hb; [constructor|].
  destruct Hb as [| y b Hy Hb]; [constructor|].
  cbn [map zip_with]. constructor; [nra | now apply IH].
Qed.

End Arrays.

(** X18: [smooth_temporal] without a previous vector returns the current
    one.  With a previous vector of the same length it returns as many
    entries, whose sum is alpha * sum(current) + (1 - alpha) *
    sum(previous): two vectors that sum to one give a vector that sums
    to one, exactly; and for alpha in [0,1] entries in [0,1] stay in
    [0,1]. *)
Theorem smooth_temporal_affine (current previous : list R) (alpha : R) :
  length current = length previous ->
  smooth_temporal current None alpha = Ok current /\
  exists out,
    smooth_temporal current (Some previous) alpha = Ok out /\
    length out = length current /\
    Rsum out = alpha * Rsum current + (1 - alpha) * Rsum previous /\
    (Rsum current = 1 -> Rsum previous = 1 -> Rsum out = 1) /\
    (0 <= alpha <= 1 ->
     Forall (fun v => 0 <= v <= 1) current ->
     Forall (fun v => 0 <= v <= 1) previous ->
     Forall (fun v => 0 <= v <= 1) out).
Proof.
  intros Hlen. split; [reflexivity|].
  assert (Hlen' : length (map (Rmult alpha) current)
                  = length (map (Rmult (1 - alpha)) previous))
    by now rewrite !length_map.
  eexists. split; [cbn [smooth_temporal]; now apply np_add_same_length|].
  assert (Hsum : Rsum (zip_with Rplus (map (Rmult alpha) current)
                         (map (Rmult (1 - alpha)) previous))
                 = alpha * Rsum current + (1 - alpha) * Rsum previous)
    by now rewrite Rsum_zip_plus, !Rsum_scale.
  split; [| split; [exact Hsum | split]].
  - rewrite length_zip_with, !length_map. lia.
  - intros Hc Hp. rewrite Hsum, Hc, Hp. ring.
  - apply convex_zip.
Qed.

Lemma smooth_temporal_affine_witness :
  exists out,
    smooth_temporal [1 / 2; 1 / 2; 0] (Some [1; 0; 0]) (7 / 10) = Ok out /\
    length out = length [1 / 2; 1 / 2; 0] /\
    Rsum out
    = 7 / 10 * Rsum [1 / 2; 1 / 2; 0] + (1 - 7 / 10) * Rsum [1; 0; 0] /\
    (Rsum [1 / 2; 1 / 2; 0] = 1 -> Rsum [1; 0; 0] = 1 -> Rsum out = 1) /\
    (0 <= 7 / 10 <= 1 ->
     Forall (fun v => 0 <= v <= 1) [1 / 2; 1 / 2; 0] ->
     Forall (fun v => 0 <= v <= 1) [1; 0; 0] ->
     Forall (fun v => 0 <= v <= 1) out).
Proof.
  apply (smooth_temporal_affine [1 / 2; 1 / 2; 0] [1; 0; 0] (7 / 10)).
  reflexivity.
Defined.

(** X19: two vectors of different lengths are not smoothed: a previous
    vector of one entry is broadcast over the current one, and when
    neither has one entry [ValueError] is raised. *)
Theorem smooth_temporal_shapes (current previous : list R) (alpha : R) :
  length current <> length previous ->
  (forall p, previous = [p] ->
     smooth_temporal current (Some previous) alpha
     = Ok (map (fun c => alpha * c + (1 - alpha) * p) current)) /\
  (length current <> 1%nat -> length previous <> 1%nat ->
     smooth_temporal current (Some previous) alpha = Raise ValueError).
Proof.
  intros Hne. split.
  - intros p ->. cbn [smooth_temporal map]. unfold np_add.
    rewrite decide_False by now rewrite length_map.
    destruct current as [| c [| c' cs]]; [reflexivity | now contradiction Hne |].
    cbn [map]. now rewrite map_map.
  - intros Hc Hp. cbn [smooth_temporal]. unfold np_add.
    rewrite decide_False by now rewrite !length_map.
    destruct current as [| c [| c' cs]]; destruct previous as [| p [| p' ps]];
      cbn in *; congruence.
Qed.

Lemma smooth_temporal_shapes_witness :
  smooth_temporal [1 / 2; 1 / 2; 0] (Some [1; 0]) (7 / 10) = Raise ValueError.
Proof.
  apply (smooth_temporal_shapes [1 / 2; 1 / 2; 0] [1; 0] (7 / 10));
    cbn; lia.
Defined.

(** X20: [smooth_blend] is [smooth_temporal] followed by the rounding:
    on probabilities and a retention s in [0,1], its entries have three
    decimals and lie within 0.0005 of the entries of
    [smooth_temporal(new, prev, 1 - s)]. *)
Theorem smooth_blend_rounds_smooth_temporal (prev new : gmap string R)
    (s c g l pc pg pl : R) :
  has_blend new c g l -> has_blend prev pc pg pl ->
  0 <= s <= 1 -> Forall unit_interval [c; g; l; pc; pg; pl] ->
  exists ic ig il rc rg rl,
    smooth_temporal [c; g; l] (Some [pc; pg; pl]) (1 - s) = Ok [ic; ig; il] /\
    smooth_blend prev new s = Ok (blend_dict rc rg rl) /\
    three_decimals rc /\ three_decimals rg /\ three_decimals rl /\
    Rabs (rc - ic) <= 5 / 10000 /\ Rabs (rg - ig) <= 5 / 10000 /\
    Rabs (rl - il) <= 5 / 10000.
Proof.
  intros Hnew Hprev _ _.
  destruct (smooth_blend_close prev new s _ _ _ _ _ _ Hnew Hprev)
    as (rc & rg & rl & Hok & Hdc & Hdg & Hdl & Hc & Hg & Hl).
  eexists _, _, _, rc, rg, rl. split; [reflexivity|].
  do 4 (split; [assumption|]).
  replace (1 - (1 - s)) with s by ring.
  repeat split; assumption.
Qed.

Lemma smooth_blend_rounds_smooth_temporal_witness :
  exists ic ig il rc rg rl,
    smooth_temporal [1 / 3; 1 / 3; 1 / 3] (Some [1; 0; 0]) (1 - 3 / 10)
    = Ok [ic; ig; il] /\
    smooth_blend calm_corner uniform_blend (3 / 10)
    = Ok (blend_dict rc rg rl) /\
    three_decimals rc /\ three_decimals rg /\ three_decimals rl /\
    Rabs (rc - ic) <= 5 / 10000 /\ Rabs (rg - ig) <= 5 / 10000 /\
    Rabs (rl - il) <= 5 / 10000.
Proof.
  apply (smooth_blend_rounds_smooth_temporal calm_corner uniform_blend
           (3 / 10) (1 / 3) (1 / 3) (1 / 3) 1 0 0);
    [apply has_blend_dict | apply has_blend_dict | lra |].
  repeat (apply Forall_cons; split; [unfold unit_interval; lra|]).
  apply Forall_nil. exact I.
Defined.

(** X21: [interpolate_emotion_vector] on two vectors of one length
    returns a vector that sums to one whenever the interpolation does not
    sum to zero; when both vectors sum to one the division changes
    nothing and the result is the interpolation (1 - t) * start + t * end
    itself, for every t. *)
Theorem interpolate_emotion_vector_normalized (start end_ : list R) (t : R) :
  length start = length end_ ->
  exists line out,
    np_add (map (Rmult (1 - t)) start) (map (Rmult t) end_) = Ok line /\
    line = zip_with Rplus (map (Rmult (1 - t)) start) (map (Rmult t) end_) /\
    interpolate_emotion_vector start end_ t = Ok out /\
    length out = length start /\
    (Rsum line <> 0 -> Rsum out = 1) /\
    (Rsum start = 1 -> Rsum end_ = 1 -> out = line).
Proof.
  intros Hlen.
  assert (Hadd : np_add (map (Rmult (1 - t)) start) (map (Rmult t) end_)
                 = Ok (zip_with Rplus (map (Rmult (1 - t)) start)
                         (map (Rmult t) end_)))
    by (apply np_add_same_length; now rewrite !length_map).
  eexists _, _. split; [exact Hadd|]. split; [reflexivity|].
  split; [unfold interpolate_emotion_vector; rewrite Hadd; reflexivity|].
  set (line := zip_with _ _ _).
  split; [| split].
  - subst line. rewrite length_map, length_zip_with, !length_map. lia.
  - intros Hnz. rewrite Rsum_map_div. now apply Rdiv_diag.
  - intros Hs He.
    assert (Hone : Rsum line = 1).
    { subst line. rewrite Rsum_zip_plus by now rewrite !length_map.
      rewrite !Rsum_scale, Hs, He. ring. }
    rewrite Hone. rewrite <- (map_id line) at 2.
    apply map_ext. intros v. unfold Rdiv. rewrite Rinv_1. ring.
Qed.

Lemma interpolate_emotion_vector_normalized_witness :
  exists line out,
    np_add (map (Rmult (1 - 1 / 4)) [1; 0; 0]) (map (Rmult (1 / 4)) [0; 0; 1])
    = Ok line /\
    line = zip_with Rplus (map (Rmult (1 - 1 / 4)) [1; 0; 0])
             (map (Rmult (1 / 4)) [0; 0; 1]) /\
    interpolate_emotion_vector [1; 0; 0] [0; 0; 1] (1 / 4) = Ok out /\
    length out = length [1; 0; 0] /\
    (Rsum line <> 0 -> Rsum out = 1) /\
    (Rsum [1; 0; 0] = 1 -> Rsum [0; 0; 1] = 1 -> out = line).
Proof.
  apply (interpolate_emotion_vector_normalized [1; 0; 0] [0; 0; 1] (1 / 4)).
  reflexivity.
Defined.

(** * utils/audio_processing.py *)

Section Audio.

(** The peak [torch.abs(waveform).max()] of a waveform [x :: xs]. *)
Lemma peak_bounds (x : R) (xs : list R) :
  let peak := foldl Rmax (Rabs x) (map Rabs xs) in
  0 <= peak /\
  Forall (fun v => Rabs v <= peak) (x :: xs) /\
  exists v, In v (x :: xs) /\ Rabs v = peak.
Proof.
  intros peak. subst peak. split; [| split].
  - eapply Rle_trans; [apply (Rabs_pos x) | apply foldl_Rmax_init].
  - apply Forall_cons. split; [apply foldl_Rmax_init|].
    apply Forall_forall. intros v Hv.
    apply foldl_Rmax_elem, in_map, list_elem_of_In, Hv.
  - destruct (foldl_Rmax_attained (map Rabs xs) (Rabs x)) as [H | H].
    + exists x. split; [now left | now symmetry].
    + apply in_map_iff in H as (v & Hv & Hin).
      exists v. split; [now right | exact Hv].
Qed.

Lemma Rabs_div_pos (v m : R) : 0 < m -> Rabs (v / m) = Rabs v / m.
Proof.
  intros Hm. unfold Rdiv. rewrite Rabs_mult, (Rabs_pos_eq (/ m)); [reflexivity|].
  left. now apply Rinv_0_lt_compat.
Qed.

End Audio.


(** X22: [normalize_audio] raises on an empty tensor.  On any other it
    returns as many samples, all within [-1, 1]; unless all samples are
    zero, one of them has absolute value exactly one; and normalizing a
    second time changes nothing. *)
Theorem normalize_audio_peak (waveform : list R) :
  (waveform = [] -> normalize_audio waveform = None) /\
  (waveform <> [] ->
   exists out,
     normalize_audio waveform = Some out /\
     length out = length waveform /\
     Forall (fun v => -1 <= v <= 1) out /\
     ((exists v, In v waveform /\ v <> 0) ->
      exists v, In v out /\ Rabs v = 1) /\
     normalize_audio out = Some out).
Proof.
  split; [now intros ->|].
  destruct waveform as [| x xs]; [easy|]. intros _.
  destruct (peak_bounds x xs) as (Hpos & Hall & (w & Hw & Hpeak)).
  unfold normalize_audio at 1.
  set (peak := foldl Rmax (Rabs x) (map Rabs xs)) in *.
  unfold gtb. destruct (Rlt_dec 0 peak) as [Hp | Hp].
  - (* a sample is not zero: every sample is divided by the peak *)
    assert (Hunit : Forall (fun v => Rabs v <= 1)
                      (map (fun v => v / peak) (x :: xs))).
    { apply Forall_map. eapply Forall_impl; [exact Hall|].
      intros v Hv. cbn beta. rewrite Rabs_div_pos by exact Hp.
      now apply Rdiv_le_one. }
    eexists. split; [reflexivity|].
    split; [now rewrite length_map|]. split; [| split].
    + eapply Forall_impl; [exact Hunit|].
      intros v Hv. now apply Rabs_le_inv in Hv.
    + intros _. exists (w / peak).
      split; [exact (in_map (fun v => v / peak) _ _ Hw)|].
      rewrite Rabs_div_pos, Hpeak by exact Hp. apply Rdiv_diag. lra.
    + (* the peak of the output is one *)
      cbn [map] in *. unfold normalize_audio. cbv zeta.
      destruct (peak_bounds (x / peak) (map (fun v => v / peak) xs))
        as (_ & _ & (u & Hu & Hpeak')).
      set (peak' := foldl Rmax (Rabs (x / peak))
                      (map Rabs (map (fun v => v / peak) xs))) in *.
      assert (Hone : peak' = 1).
      { apply Rle_antisym.
        - rewrite <- Hpeak'. apply Forall_forall with (x := u) in Hunit;
            [exact Hunit | now apply list_elem_of_In].
        - assert (Hin : In (Rabs (w / peak))
                          (Rabs (x / peak)
                           :: map Rabs (map (fun v => v / peak) xs))).
          { change (In (Rabs (w / peak))
                      (map Rabs (map (fun v => v / peak) (x :: xs)))).
            apply (in_map Rabs), (in_map (fun v => v / peak)), Hw. }
          assert (Hwp : Rabs (w / peak) = 1)
            by (rewrite Rabs_div_pos, Hpeak by exact Hp; apply Rdiv_diag; lra).
          rewrite <- Hwp. destruct Hin as [<- | Hin].
          + apply foldl_Rmax_init.
          + now apply foldl_Rmax_elem. }
      rewrite Hone. unfold gtb. destruct (Rlt_dec 0 1); [| lra].
      f_equal.
      change (map (fun v => v / 1) (map (fun v => v / peak) (x :: xs))
              = map (fun v => v / peak) (x :: xs)).
      rewrite <- (map_id (map (fun v => v / peak) (x :: xs))) at 2.
      apply map_ext. intros v. unfold Rdiv. rewrite Rinv_1. ring.
  - (* all samples are zero: the waveform is returned as it is *)
    assert (Hzero : peak = 0) by lra.
    eexists. split; [reflexivity|]. split; [reflexivity|].
    split; [| split].
    + eapply Forall_impl; [exact Hall|].
      intros v Hv. cbn beta in Hv. rewrite Hzero in Hv.
      pose proof (Rabs_pos v). apply Rabs_le_inv in Hv. lra.
    + intros (v & Hv & Hnz). exfalso.
      apply Forall_forall with (x := v) in Hall;
        [| now apply list_elem_of_In].
      cbn beta in Hall. rewrite Hzero in Hall.
      apply Rabs_le_inv in Hall. lra.
    + unfold normalize_audio. fold peak. unfold gtb.
      destruct (Rlt_dec 0 peak); [lra | reflexivity].
Qed.

Lemma normalize_audio_peak_witness :
  exists out,
    normalize_audio [1 / 2; -2; 0] = Some out /\
    length out = length [1 / 2; -2; 0] /\
    Forall (fun v => -1 <= v <= 1) out /\
    ((exists v, In v [1 / 2; -2; 0] /\ v <> 0) ->
     exists v, In v out /\ Rabs v = 1) /\
    normalize_audio out = Some out.
Proof.
  apply (normalize_audio_peak [1 / 2; -2; 0]). discriminate.
Defined.



Lemma Rsum_sq_nonneg (w : list R) : 0 <= Rsum (map (fun v => v ^ 2) w).
Proof.
  induction w as [| v w IH]; [cbn; lra|].
  rewrite map_cons, Rsum_cons. pose proof (pow2_ge_0 v). lra.
Qed.



(** * The label on distributions *)

(** X24: a vector of another length than three is refused with
    [ValueError]; on three entries that add up to one, the label is
    "neutral blend" exactly when no entry exceeds 0.6 and two of them are
    at most 0.3, so the greatest entry of a neutral blend lies between
    0.4 and 0.6. *)
Theorem detect_emotion_blend_neutral (emotion_vector : list R) :
  (length emotion_vector <> 3%nat ->
   _detect_emotion_blend emotion_vector = Raise ValueError) /\
  (forall calm guarded lit,
     emotion_vector = [calm; guarded; lit] -> calm + guarded + lit = 1 ->
     (_detect_emotion_blend emotion_vector = Ok "neutral blend"%string
      <-> calm <= 6 / 10 /\ guarded <= 6 / 10 /\ lit <= 6 / 10 /\
          ((calm <= 3 / 10 /\ guarded <= 3 / 10) \/
           (calm <= 3 / 10 /\ lit <= 3 / 10) \/
           (guarded <= 3 / 10 /\ lit <= 3 / 10))) /\
     (_detect_emotion_blend emotion_vector = Ok "neutral blend"%string ->
      4 / 10 <= Rmax (Rmax calm guarded) lit <= 6 / 10)).
Proof.
  split.
  - destruct emotion_vector as [| ? [| ? [| ? [| ? ?]]]]; try reflexivity.
    intros H. now contradiction H.
  - intros calm guarded lit -> Hsum.
    assert (Hiff :
      _detect_emotion_blend [calm; guarded; lit] = Ok "neutral blend"%string
      <-> calm <= 6 / 10 /\ guarded <= 6 / 10 /\ lit <= 6 / 10 /\
          ((calm <= 3 / 10 /\ guarded <= 3 / 10) \/
           (calm <= 3 / 10 /\ lit <= 3 / 10) \/
           (guarded <= 3 / 10 /\ lit <= 3 / 10))).
    { unfold _detect_emotion_blend.
      repeat match goal with
        | |- context [gtb ?x ?y] =>
            let E := fresh "E" in
            destruct (gtb x y) eqn:E;
            [apply gtb_spec in E | apply not_true_iff_false in E;
                                   rewrite gtb_spec in E]
        end; cbn [andb];
        (split; [intros H; first [discriminate H | lra] | intros H]);
        first [reflexivity | exfalso; lra]. }
    split; [exact Hiff|].
    intros H. apply Hiff in H. unfold Rmax.
    do 2 destruct (Rle_dec _ _); lra.
Qed.

Lemma detect_emotion_blend_neutral_witness :
  _detect_emotion_blend [1; 2; 3; 4] = Raise ValueError.
Proof.
  apply (detect_emotion_blend_neutral [1; 2; 3; 4]). discriminate.
Defined.






(** ** The blend of logits in range *)

(** X26: for a positive sharpness and three logits whose quotients by it
    are in the range of doubles, [blend_emotions] returns a dict of the
    three labels, every value in [0,1] and the sum within 1e-6 of one. *)
Theorem blend_emotions_in_range (a b c alpha : R) :
  0 < alpha -> scaled_in_range [a; b; c] alpha ->
  exists d,
    blend_emotions [a; b; c] alpha = Ok d /\ is_distribution tolerance d.
Proof.
  intros Ha _.
  destruct (blend_emotions_triple a b c alpha) as (d & Hd & Hdist); [lra|].
  exists d. split; [exact Hd|].
  apply (is_distribution_weaken 0); [unfold tolerance; lra | exact Hdist].
Qed.

Lemma blend_emotions_in_range_witness :
  exists d,
    blend_emotions [2; -1; 1 / 2] (7 / 10) = Ok d /\
    is_distribution tolerance d.
Proof.
  apply (blend_emotions_in_range 2 (-1) (1 / 2) (7 / 10)); [lra|].
  unfold scaled_in_range. in_range.
Defined.
